(** * gametimedb: the Express server of [src/index.js]

    A shallow embedding of the request handlers of the two server
    variants that [src/index.js] holds one after the other:

    - variant A (lines 1-579): login, signup, game listing, game by id,
      game by Steam appid, owned games, statistics, health;
    - variant B (lines 580-964): the same server without signup and
      without the owned-games proxy, and with an older game listing.

    The development has three layers.  [JS] models the JavaScript
    values and built-ins the handlers rely on ([parseInt], [parseFloat],
    [Number] coercion, truthiness, [toUpperCase], [Math.max], ...).
    [Express] models route registration order and first-match dispatch.
    [Server] models the handlers themselves, over an abstract database
    engine, and records the statements each handler sends to it.

    Three limits of the embedding are kept in view throughout.  Numbers
    are exact integers, where JavaScript has binary64: the two agree as
    long as every integer involved stays below 2^53, and a property that
    depends on the arithmetic carries a bound that keeps it there.  A
    string is a sequence of ASCII characters: a property that depends on
    spaces, letter case or length says so with [ascii_text].  A request
    path is written without percent-escapes: a property that depends on
    it says so with [verbatim]. *)

From Stdlib Require Import ZArith List String Ascii Bool Lia DecimalString.
Import ListNotations.

Set Warnings "-register-all".

Local Open Scope string_scope.
Local Open Scope Z_scope.

(** ** JavaScript values and built-ins *)

Module JS.

(** Numbers.  The handlers compute with integers, [NaN] and (only
    through a division by zero) the infinities.  Integers are kept
    exact: binary64 represents them exactly up to 2^53, beyond that
    JavaScript rounds and the embedding does not.  The two zeros are
    identified. *)
Inductive num : Type :=
| NaN
| Fin (z : Z)
| PosInf
| NegInf.

(** The value [parseFloat] denotes: the decimal literal it read,
    [mant * 10 ^ exp10] with its sign, before rounding to binary64. *)
Inductive float_lit : Type :=
| FNaN
| FInf (neg : bool)
| FDec (neg : bool) (mant : Z) (exp10 : Z).

(** Values.  [req.query] holds strings, arrays and objects (or nothing:
    [VUndef]); destructuring defaults add numbers; JSON bodies may hold
    any of these. *)
Inductive jsval : Type :=
| VUndef
| VNull
| VBool (b : bool)
| VNum (n : num)
| VStr (s : string)
| VArr (l : list jsval)
| VObj (fields : list (string * jsval)).

(** [Number::toString].  Integers print in decimal, as JavaScript prints
    them below 10^21; from there on JavaScript switches to exponent
    notation and the embedding does not. *)
Definition num_to_string (n : num) : string :=
  match n with
  | NaN => "NaN"
  | Fin z => NilZero.string_of_int (Z.to_int z)
  | PosInf => "Infinity"
  | NegInf => "-Infinity"
  end.

(** [ToString]: an array joins its elements with a comma (null and
    undefined elements print as nothing), a plain object prints as
    [[object Object]].  This is the string of a value that has one;
    [coercible] below says which values have. *)
Fixpoint ToString (v : jsval) : string :=
  match v with
  | VUndef => "undefined"
  | VNull => "null"
  | VBool true => "true"
  | VBool false => "false"
  | VNum n => num_to_string n
  | VStr s => s
  | VArr l =>
      String.concat ","
        (map (fun e => match e with
                       | VUndef | VNull => ""
                       | _ => ToString e
                       end) l)
  | VObj _ => "[object Object]"
  end.

(** Whether [ToString] returns.  On an object it calls the [toString]
    of the object, then its [valueOf], and throws a TypeError when
    neither gives a primitive.  The values of a parsed query string or
    JSON body are never functions.  An object with a property [toString]
    of its own has therefore nothing to call that would help ([valueOf],
    its own or the inherited one, gives no primitive); every other
    object inherits [Object.prototype.toString].  An array asks each of
    its elements. *)
Definition own (k : string) (fields : list (string * jsval)) : bool :=
  existsb (fun kv => String.eqb (fst kv) k) fields.

Fixpoint coercible (v : jsval) : bool :=
  match v with
  | VArr l => forallb coercible l
  | VObj fields => negb (own "toString" fields)
  | _ => true
  end.

(** [ToBoolean]. *)
Definition truthy (v : jsval) : bool :=
  match v with
  | VUndef | VNull => false
  | VBool b => b
  | VNum NaN => false
  | VNum (Fin z) => negb (z =? 0)
  | VNum _ => true
  | VStr s => negb (String.eqb s "")
  | VArr _ | VObj _ => true
  end.

(** [x || d] on numbers. *)
Definition num_or (x d : num) : num :=
  if truthy (VNum x) then x else d.

Definition Math_max (a b : num) : num :=
  match a, b with
  | NaN, _ | _, NaN => NaN
  | PosInf, _ | _, PosInf => PosInf
  | NegInf, x | x, NegInf => x
  | Fin x, Fin y => Fin (Z.max x y)
  end.

Definition Math_min (a b : num) : num :=
  match a, b with
  | NaN, _ | _, NaN => NaN
  | NegInf, _ | _, NegInf => NegInf
  | PosInf, x | x, PosInf => x
  | Fin x, Fin y => Fin (Z.min x y)
  end.

Definition num_sub (a b : num) : num :=
  match a, b with
  | NaN, _ | _, NaN => NaN
  | Fin x, Fin y => Fin (x - y)
  | PosInf, PosInf | NegInf, NegInf => NaN
  | PosInf, _ | _, NegInf => PosInf
  | NegInf, _ | _, PosInf => NegInf
  end.

Definition signed_inf (neg : bool) : num := if neg then NegInf else PosInf.

Definition num_mul (a b : num) : num :=
  match a, b with
  | NaN, _ | _, NaN => NaN
  | Fin x, Fin y => Fin (x * y)
  | PosInf, Fin x | Fin x, PosInf =>
      if x =? 0 then NaN else signed_inf (x <? 0)
  | NegInf, Fin x | Fin x, NegInf =>
      if x =? 0 then NaN else signed_inf (0 <? x)
  | PosInf, PosInf | NegInf, NegInf => PosInf
  | PosInf, NegInf | NegInf, PosInf => NegInf
  end.

(** [Math.ceil(a / b)].  On integers with a non-zero divisor this is the
    ceiling of the quotient, [- ((- x) / y)] with [Z.div] the floor. *)
Definition Math_ceil_div (a b : num) : num :=
  match a, b with
  | NaN, _ | _, NaN => NaN
  | Fin x, Fin y =>
      if y =? 0
      then (if x =? 0 then NaN else signed_inf (x <? 0))
      else Fin (- ((- x) / y))
  | Fin _, _ => Fin 0
  | PosInf, Fin y => signed_inf (y <? 0)
  | NegInf, Fin y => signed_inf (0 <=? y)
  | _, _ => NaN
  end.

(** [a < b]; a comparison with [NaN] is false. *)
Definition num_lt (a b : num) : bool :=
  match a, b with
  | NaN, _ | _, NaN => false
  | Fin x, Fin y => x <? y
  | NegInf, NegInf | PosInf, _ => false
  | NegInf, _ => true
  | Fin _, PosInf => true
  | Fin _, NegInf => false
  end.

Definition num_gt (a b : num) : bool := num_lt b a.

(** *** Scanning strings

    A [string] stands for a JavaScript string of ASCII code units; on
    those the definitions below are the ECMAScript ones.  Bytes from 128
    on are carried along as caseless characters that are neither spaces
    nor digits, which is not what JavaScript does with the characters
    beyond ASCII (some are spaces, some change case into ASCII). *)

Definition is_space (c : ascii) : bool :=
  let n := nat_of_ascii c in
  ((9 <=? n) && (n <=? 13))%nat || (n =? 32)%nat.

Fixpoint trim_start (s : string) : string :=
  match s with
  | String c r => if is_space c then trim_start r else s
  | EmptyString => s
  end.

Fixpoint trim_end (s : string) : string :=
  match s with
  | String c r =>
      match trim_end r with
      | EmptyString => if is_space c then EmptyString else String c EmptyString
      | t => String c t
      end
  | EmptyString => s
  end.

Definition trim (s : string) : string := trim_end (trim_start s).

(** The value of [c] as a digit, when it is one in the given radix. *)
Definition digit_val (radix : Z) (c : ascii) : option Z :=
  let n := Z.of_nat (nat_of_ascii c) in
  let d := if (48 <=? n) && (n <=? 57) then Some (n - 48)
           else if (97 <=? n) && (n <=? 122) then Some (n - 87)
           else if (65 <=? n) && (n <=? 90) then Some (n - 55)
           else None in
  match d with
  | Some k => if k <? radix then Some k else None
  | None => None
  end.

(** The longest prefix of digits, as a number; [acc] is [None] until a
    digit has been read. *)
Fixpoint scan_int (radix : Z) (s : string) (acc : option Z) : option Z :=
  match s with
  | String c r =>
      match digit_val radix c with
      | Some d =>
          scan_int radix r
            (Some (match acc with Some a => a * radix + d | None => d end))
      | None => acc
      end
  | EmptyString => acc
  end.

Definition split_sign (s : string) : bool * string :=
  match s with
  | String "-"%char r => (true, r)
  | String "+"%char r => (false, r)
  | _ => (false, s)
  end.

Definition is_letter (lower upper c : ascii) : bool :=
  Ascii.eqb c lower || Ascii.eqb c upper.

(** [parseInt(s)] with no radix argument: leading spaces, a sign, an
    optional [0x] prefix, then the longest run of digits.  The integer
    is the one the digits denote; JavaScript rounds it to binary64. *)
Definition parseInt_string (s : string) : num :=
  let '(neg, s1) := split_sign (trim_start s) in
  let '(radix, s2) :=
    match s1 with
    | String "0"%char (String x r) =>
        if is_letter "x" "X" x then (16, r) else (10, s1)
    | _ => (10, s1)
    end in
  match scan_int radix s2 None with
  | Some n => Fin (if neg then - n else n)
  | None => NaN
  end.

Definition parseInt (v : jsval) : num := parseInt_string (ToString v).

(** Decimal digits from the front of [s]: the number they extend [acc]
    to, how many were read, and what follows. *)
Fixpoint take_digits (s : string) (acc : Z) (n : Z) : Z * Z * string :=
  match s with
  | String c r =>
      match digit_val 10 c with
      | Some d => take_digits r (acc * 10 + d) (n + 1)
      | None => (acc, n, s)
      end
  | EmptyString => (acc, n, s)
  end.

(** An optional exponent part: [e] or [E], an optional sign, at least
    one digit.  Without a digit nothing is consumed. *)
Definition scan_exponent (s : string) : Z * string :=
  match s with
  | String c r =>
      if is_letter "e" "E" c then
        let '(eneg, r1) := split_sign r in
        let '(ev, en, rest) := take_digits r1 0 0 in
        if en =? 0 then (0, s) else ((if eneg then - ev else ev), rest)
      else (0, s)
  | EmptyString => (0, s)
  end.

(** The longest prefix that is an unsigned decimal literal
    ([digits], [digits.digits?], [.digits], each with an optional
    exponent): mantissa, power of ten, and what follows. *)
Definition scan_decimal (s : string) : option (Z * Z * string) :=
  let '(iv, ilen, r1) := take_digits s 0 0 in
  let '(m, flen, r2) :=
    match r1 with
    | String "."%char r => take_digits r iv 0
    | _ => (iv, 0, r1)
    end in
  if (ilen =? 0) && (flen =? 0) then None
  else let '(e, r3) := scan_exponent r2 in Some (m, e - flen, r3).

Fixpoint strip_prefix (p s : string) : option string :=
  match p, s with
  | EmptyString, _ => Some s
  | String a p', String b s' => if Ascii.eqb a b then strip_prefix p' s' else None
  | String _ _, EmptyString => None
  end.

(** [parseFloat(s)]: leading spaces, then the longest prefix that is a
    signed decimal literal or a signed [Infinity]. *)
Definition parseFloat_string (s : string) : float_lit :=
  let '(neg, s1) := split_sign (trim_start s) in
  match strip_prefix "Infinity" s1 with
  | Some _ => FInf neg
  | None =>
      match scan_decimal s1 with
      | Some (m, e, _) => FDec neg m e
      | None => FNaN
      end
  end.

Definition parseFloat (v : jsval) : float_lit := parseFloat_string (ToString v).

(** All of [s] as digits of the radix; [None] when [s] is empty or holds
    anything else. *)
Fixpoint all_digits (radix : Z) (s : string) (acc : option Z) : option Z :=
  match s with
  | String c r =>
      match digit_val radix c with
      | Some d =>
          all_digits radix r
            (Some (match acc with Some a => a * radix + d | None => d end))
      | None => None
      end
  | EmptyString => acc
  end.

Definition int_literal (radix : Z) (s : string) : float_lit :=
  match all_digits radix s None with
  | Some n => FDec false n 0
  | None => FNaN
  end.

(** [Number(s)] on a string: the whole string, spaces trimmed at both
    ends, must be empty (zero), a signed decimal literal, a signed
    [Infinity], or an unsigned [0x], [0o] or [0b] literal. *)
Definition StringToNumber (s : string) : float_lit :=
  match trim s with
  | EmptyString => FDec false 0 0
  | String "0"%char (String x r) as t =>
      if is_letter "x" "X" x then int_literal 16 r
      else if is_letter "o" "O" x then int_literal 8 r
      else if is_letter "b" "B" x then int_literal 2 r
      else match scan_decimal t with
           | Some (m, e, EmptyString) => FDec false m e
           | _ => FNaN
           end
  | t =>
      let '(neg, t1) := split_sign t in
      match strip_prefix "Infinity" t1 with
      | Some EmptyString => FInf neg
      | Some _ => FNaN
      | None =>
          match scan_decimal t1 with
          | Some (m, e, EmptyString) => FDec neg m e
          | _ => FNaN
          end
      end
  end.

(** The global [isNaN] applied to a string. *)
Definition isNaN (s : string) : bool :=
  match StringToNumber s with
  | FNaN => true
  | _ => false
  end.

Definition upper_char (c : ascii) : ascii :=
  let n := nat_of_ascii c in
  if ((97 <=? n) && (n <=? 122))%nat then ascii_of_nat (n - 32) else c.

Definition lower_char (c : ascii) : ascii :=
  let n := nat_of_ascii c in
  if ((65 <=? n) && (n <=? 90))%nat then ascii_of_nat (n + 32) else c.

Fixpoint map_string (f : ascii -> ascii) (s : string) : string :=
  match s with
  | String c r => String (f c) (map_string f r)
  | EmptyString => EmptyString
  end.

(** [String.prototype.toUpperCase] and [toLowerCase]. *)
Definition toUpperCase (s : string) : string := map_string upper_char s.
Definition toLowerCase (s : string) : string := map_string lower_char s.

(** [Array.prototype.includes] on an array of strings: only a string
    value can be found in it. *)
Definition includes (l : list string) (v : jsval) : bool :=
  match v with
  | VStr s => existsb (String.eqb s) l
  | _ => false
  end.

(** How often [c] occurs in [s]: the length of [s.match(/c/g) || []]. *)
Fixpoint count_char (c : ascii) (s : string) : nat :=
  match s with
  | String d r => (if Ascii.eqb c d then 1 else 0) + count_char c r
  | EmptyString => 0
  end.

End JS.

Import JS.

(** The two servers of [src/index.js]. *)
Inductive variant : Type :=
| VariantA
| VariantB.

(** ** Routing *)

Module Express.

Inductive method : Type :=
| GET
| HEAD
| POST
| OtherMethod.

(** Whether a route registered for [registered] takes a request made
    with [m]: an [app.get] route also takes HEAD requests. *)
Definition handles (registered m : method) : bool :=
  match registered, m with
  | GET, GET | GET, HEAD | HEAD, HEAD | POST, POST
  | OtherMethod, OtherMethod => true
  | _, _ => false
  end.

(** The methods [express.static] serves files for. *)
Definition reads (m : method) : bool :=
  match m with
  | GET | HEAD => true
  | _ => false
  end.

(** A route path, segment by segment: a literal or a named parameter. *)
Inductive segment : Type :=
| Lit (s : string)
| Param (name : string).

(** The handlers the two files register. *)
Inductive handler : Type :=
| ServeLogin
| ServeDashboard
| Login
| Signup
| ServeSignup
| ListGames
| GameById
| GameBySteamId
| OwnedGames
| GameStats
| Health.

Record route : Type := Route {
  route_method : method;
  route_path : list segment;
  route_handler : handler
}.

(** The [app.get] and [app.post] calls, in the order of the file. *)
Definition routes (v : variant) : list route :=
  match v with
  | VariantA =>
      [ Route GET [] ServeLogin;
        Route GET [Lit "dashboard"] ServeDashboard;
        Route POST [Lit "api"; Lit "login"] Login;
        Route POST [Lit "api"; Lit "signup"] Signup;
        Route GET [Lit "signup"] ServeSignup;
        Route GET [Lit "api"; Lit "games"] ListGames;
        Route GET [Lit "api"; Lit "games"; Param "id"] GameById;
        Route GET [Lit "api"; Lit "games"; Lit "steam"; Param "appid"] GameBySteamId;
        Route GET [Lit "api"; Lit "owned-games"] OwnedGames;
        Route GET [Lit "api"; Lit "games"; Lit "stats"] GameStats;
        Route GET [Lit "api"; Lit "health"] Health ]
  | VariantB =>
      [ Route GET [] ServeLogin;
        Route GET [Lit "dashboard"] ServeDashboard;
        Route POST [Lit "api"; Lit "login"] Login;
        Route GET [Lit "api"; Lit "games"] ListGames;
        Route GET [Lit "api"; Lit "games"; Param "id"] GameById;
        Route GET [Lit "api"; Lit "games"; Lit "steam"; Param "appid"] GameBySteamId;
        Route GET [Lit "api"; Lit "games"; Lit "stats"] GameStats;
        Route GET [Lit "api"; Lit "health"] Health ]
  end.

(** A request path is the list of its segments (a trailing slash does
    not count).  A literal matches whatever the case, a parameter
    matches any non-empty segment and binds it.  Express matches the
    literals against the path as the request line has it and binds a
    parameter to the percent-decoding of its segment: on a path written
    without percent-escapes, which is its own decoding, this is the same
    thing. *)
Fixpoint match_path (pat : list segment) (path : list string)
  : option (list (string * string)) :=
  match pat, path with
  | [], [] => Some []
  | Lit l :: pat', s :: path' =>
      if String.eqb (toLowerCase l) (toLowerCase s)
      then match_path pat' path'
      else None
  | Param x :: pat', s :: path' =>
      if String.eqb s "" then None
      else option_map (cons (x, s)) (match_path pat' path')
  | _, _ => None
  end.

(** The first route, in registration order, whose method and path match
    the request: its handler runs and answers, no later route is tried. *)
Fixpoint first_match (rs : list route) (m : method) (path : list string)
  : option (handler * list (string * string)) :=
  match rs with
  | [] => None
  | r :: rs' =>
      if handles (route_method r) m then
        match match_path (route_path r) path with
        | Some ps => Some (route_handler r, ps)
        | None => first_match rs' m path
        end
      else first_match rs' m path
  end.

Inductive target : Type :=
| StaticFile
| Handler (h : handler) (params : list (string * string))
| EndpointNotFound.

(** Routing, once the body parsers have let the request through (see
    [application] below): [express.static('public')] comes first and
    answers a GET or HEAD for a file it has ([public_has]); then the
    routes; then the 404 handler. *)
Definition dispatch (v : variant) (public_has : list string -> bool)
    (m : method) (path : list string) : target :=
  if reads m && public_has path then StaticFile
  else match first_match (routes v) m path with
       | Some (h, ps) => Handler h ps
       | None => EndpointNotFound
       end.

(** The application [app]: the whole stack of middleware.  [express.json] and
    [express.urlencoded] come before everything else; a body that one of
    them cannot read (malformed JSON, a body that is too large, ...) is
    passed on as an error, past the static files, the routes and the 404
    handler, to the error-handling middleware at the end of the file. *)
Inductive served : Type :=
| Routed (t : target)
| UnhandledError.

Definition application (v : variant) (public_has : list string -> bool)
    (body_read : bool) (m : method) (path : list string) : served :=
  if body_read then Routed (dispatch v public_has m path) else UnhandledError.

End Express.

Import Express.

(** ** Handlers *)

Module Server.

(** A bound parameter: a value, or the number [parseFloat] gave. *)
Inductive param : Type :=
| PVal (v : jsval)
| PFloat (f : float_lit).

(** What [pool.execute] is called with. *)
Record stmt : Type := Stmt {
  sql : string;
  args : list param
}.

Definition row : Type := list (string * jsval).

(** The collaborators: the database behind [pool.execute] and
    [bcrypt.compare].  [None] is a rejected promise.  For the counting
    statement the engine gives the [total] of its single row, an
    integer. *)
Record Backend : Type := {
  run_select : stmt -> option (list row);
  run_count : stmt -> option Z;
  bcrypt_compare : jsval -> jsval -> option bool
}.

(** A handler body: the statements it has sent, and whether it returned
    or threw. *)
Inductive outcome (A : Type) : Type :=
| Returned (a : A)
| Thrown.

Arguments Returned {A} a.
Arguments Thrown {A}.

Definition io (A : Type) : Type := (list stmt * outcome A)%type.

Definition ret {A} (a : A) : io A := ([], Returned a).

Definition throw {A} : io A := ([], Thrown).

Definition bind {A B} (m : io A) (f : A -> io B) : io B :=
  match m with
  | (sent, Returned a) => let '(sent', r) := f a in ((sent ++ sent')%list, r)
  | (sent, Thrown) => (sent, Thrown)
  end.

Notation "x <- m ;; k" := (bind m (fun x => k))
  (at level 61, m at next level, right associativity).

Definition lift {A} (o : option A) : io A :=
  match o with
  | Some a => ret a
  | None => throw
  end.

Definition select (w : Backend) (s : stmt) : io (list row) :=
  ([s], match run_select w s with Some rows => Returned rows | None => Thrown end).

Definition count (w : Backend) (s : stmt) : io Z :=
  ([s], match run_count w s with Some n => Returned n | None => Thrown end).

Record response : Type := Response {
  status : Z;
  body : jsval
}.

(** [try { ... } catch (error) { res.status(500).json(...) }]. *)
Definition try_catch (m : io response) (on_error : response)
  : list stmt * response :=
  match m with
  | (sent, Returned r) => (sent, r)
  | (sent, Thrown) => (sent, on_error)
  end.

Definition failure (code : Z) (message : string) : response :=
  Response code (VObj [("success", VBool false); ("message", VStr message)]).

Definition field (k : string) (r : row) : jsval :=
  match find (fun kv => String.eqb (fst kv) k) r with
  | Some kv => snd kv
  | None => VUndef
  end.

(** *** POST /api/login *)

Definition login_sql (v : variant) : string :=
  match v with
  | VariantA => "SELECT id, username, password_hash FROM users WHERE username = ?"
  | VariantB => "SELECT username, password_hash FROM users WHERE username = ?"
  end.

Definition login_user (v : variant) (user : row) : jsval :=
  match v with
  | VariantA => VObj [("username", field "username" user); ("id", field "id" user)]
  | VariantB => VObj [("username", field "username" user)]
  end.

Definition login (v : variant) (w : Backend) (username password : jsval)
  : list stmt * response :=
  try_catch
    (if negb (truthy username) || negb (truthy password) then
       ret (failure 400 "Username and password are required")
     else
       rows <- select w (Stmt (login_sql v) [PVal username]) ;;
       match rows with
       | [] => ret (failure 401 "Invalid username or password")
       | user :: _ =>
           isPasswordValid <-
             lift (bcrypt_compare w password (field "password_hash" user)) ;;
           if negb isPasswordValid then
             ret (failure 401 "Invalid username or password")
           else
             ret (Response 200
                    (VObj [("success", VBool true);
                           ("message", VStr "Login successful");
                           ("user", login_user v user)]))
       end)
    (failure 500 "Internal server error").

(** *** GET /api/games *)

(** [req.query], as the handler destructures it. *)
Record games_query : Type := GamesQuery {
  search : jsval;
  minPrice : jsval;
  maxPrice : jsval;
  minHours : jsval;
  maxHours : jsval;
  sortBy : jsval;
  order : jsval;
  page : jsval;
  limit : jsval
}.

(** A destructuring default: taken when the property is undefined. *)
Definition or_default (x d : jsval) : jsval :=
  match x with
  | VUndef => d
  | _ => x
  end.

(** A coercion to a string, where the handler calls [parseInt] or
    [parseFloat] on [x] or writes [x] into a template: it throws when
    [x] has no string. *)
Definition coerce (x : jsval) : io unit :=
  if coercible x then ret tt else throw.

Definition coerce_if (taken : bool) (x : jsval) : io unit :=
  if taken then coerce x else ret tt.

(** Variant A falls back on [NaN] and zero ([parseInt(page) || 1]);
    variant B passes what [parseInt] gave to [Math.max].  (What
    [pageNum], [limitNum] and [build_filters] compute is computed once
    the coercions they hold have returned: see [list_games_body].) *)
Definition pageNum (v : variant) (q : games_query) : num :=
  let page := or_default (page q) (VNum (Fin 1)) in
  match v with
  | VariantA => Math_max (Fin 1) (num_or (parseInt page) (Fin 1))
  | VariantB => Math_max (Fin 1) (parseInt page)
  end.

Definition limitNum (v : variant) (q : games_query) : num :=
  let limit := or_default (limit q) (VNum (Fin 20)) in
  match v with
  | VariantA =>
      Math_min (Fin 100) (Math_max (Fin 1) (num_or (parseInt limit) (Fin 20)))
  | VariantB => Math_min (Fin 100) (Math_max (Fin 1) (parseInt limit))
  end.

Definition offset (v : variant) (q : games_query) : num :=
  num_mul (num_sub (pageNum v q) (Fin 1)) (limitNum v q).

(** The test that guards a price or hour bound: variant A asks
    [x !== undefined && x !== ''], variant B asks for a truthy [x]. *)
Definition is_given (v : variant) (x : jsval) : bool :=
  match v with
  | VariantA =>
      match x with
      | VUndef => false
      | VStr EmptyString => false
      | _ => true
      end
  | VariantB => truthy x
  end.

(** The two arrays the handler fills side by side. *)
Record filters : Type := Filters {
  whereConditions : list string;
  baseParams : list param
}.

Definition push (f : filters) (condition : string) (p : param) : filters :=
  Filters (whereConditions f ++ [condition])%list (baseParams f ++ [p])%list.

Definition build_filters (v : variant) (q : games_query) : filters :=
  let f := Filters [] [] in
  let f := if truthy (search q)
           then push f "name LIKE ?" (PVal (VStr ("%" ++ ToString (search q) ++ "%")))
           else f in
  let f := if is_given v (minPrice q)
           then push f "price_usd >= ?" (PFloat (parseFloat (minPrice q)))
           else f in
  let f := if is_given v (maxPrice q)
           then push f "price_usd <= ?" (PFloat (parseFloat (maxPrice q)))
           else f in
  let f := if is_given v (minHours q)
           then push f "hours_to_beat >= ?" (PFloat (parseFloat (minHours q)))
           else f in
  let f := if is_given v (maxHours q)
           then push f "hours_to_beat <= ?" (PFloat (parseFloat (maxHours q)))
           else f in
  f.

Definition where_text (conditions : list string) : string :=
  if (0 <? List.length conditions)%nat
  then "WHERE " ++ String.concat " AND " conditions
  else "".

Definition whereClause (f : filters) : string := where_text (whereConditions f).

Definition validSortColumns : list string :=
  ["name"; "price_usd"; "hours_to_beat"; "cost_per_hour"; "created_at"].

Definition sortColumn (q : games_query) : jsval :=
  let sortBy := or_default (sortBy q) (VStr "name") in
  if includes validSortColumns sortBy then sortBy else VStr "name".

(** [order.toUpperCase() === 'DESC' ? 'DESC' : 'ASC']; only a string has
    a [toUpperCase] to call. *)
Definition sortOrder (q : games_query) : outcome string :=
  match or_default (order q) (VStr "ASC") with
  | VStr s => Returned (if String.eqb (toUpperCase s) "DESC" then "DESC" else "ASC")
  | _ => Thrown
  end.

Definition nl : string := String (ascii_of_nat 10) EmptyString.

Definition countQuery (f : filters) : string :=
  "SELECT COUNT(*) as total FROM steam_games " ++ whereClause f.

(** The text before the where clause of the fetch query. *)
Definition games_select (v : variant) : string :=
  match v with
  | VariantA =>
      "SELECT id, name, steam_appid, price_usd, hours_to_beat, cost_per_hour, created_at, updated_at FROM steam_games "
  | VariantB =>
      nl ++ "      SELECT " ++
      nl ++ "        id," ++
      nl ++ "        name," ++
      nl ++ "        steam_appid," ++
      nl ++ "        price_usd," ++
      nl ++ "        hours_to_beat," ++
      nl ++ "        cost_per_hour," ++
      nl ++ "        created_at," ++
      nl ++ "        updated_at" ++
      nl ++ "      FROM steam_games " ++
      nl ++ "      "
  end.

(** The text after it: ordering and pagination.  Variant A writes the
    two numbers into the text, variant B binds them. *)
Definition games_order_page (v : variant) (column : jsval) (direction : string)
    (limitNum offset : num) : string :=
  match v with
  | VariantA =>
      " ORDER BY " ++ ToString column ++ " " ++ direction ++
      " LIMIT " ++ num_to_string limitNum ++ " OFFSET " ++ num_to_string offset
  | VariantB =>
      nl ++ "      ORDER BY " ++ ToString column ++ " " ++ direction ++
      nl ++ "      LIMIT ? OFFSET ?" ++
      nl ++ "    "
  end.

Definition gamesQuery (v : variant) (f : filters) (column : jsval)
    (direction : string) (limitNum offset : num) : string :=
  games_select v ++ whereClause f ++ games_order_page v column direction limitNum offset.

Definition page_params (v : variant) (limitNum offset : num) : list param :=
  match v with
  | VariantA => []
  | VariantB => [PVal (VNum limitNum); PVal (VNum offset)]
  end.

Definition gamesParams (v : variant) (f : filters) (limitNum offset : num)
  : list param :=
  (baseParams f ++ page_params v limitNum offset)%list.

Record pagination : Type := Pagination {
  currentPage : num;
  totalPages : num;
  totalGames : num;
  gamesPerPage : num;
  hasNextPage : bool;
  hasPrevPage : bool
}.

Definition games_body (games : list row) (p : pagination) : jsval :=
  VObj [("success", VBool true);
        ("data",
         VObj [("games", VArr (map VObj games));
               ("pagination",
                VObj [("currentPage", VNum (currentPage p));
                      ("totalPages", VNum (totalPages p));
                      ("totalGames", VNum (totalGames p));
                      ("gamesPerPage", VNum (gamesPerPage p));
                      ("hasNextPage", VBool (hasNextPage p));
                      ("hasPrevPage", VBool (hasPrevPage p))])])].

Definition page_info (total : Z) (pageNum limitNum : num) : pagination :=
  let totalPages := Math_ceil_div (Fin total) limitNum in
  Pagination pageNum totalPages (Fin total) limitNum
    (num_lt pageNum totalPages) (num_gt pageNum (Fin 1)).

(** Variant A compares the number of parameters with the number of
    question marks in the text and throws when they differ; variant B
    has no such test. *)
Definition check_params (v : variant) (query : string) (params : list param)
  : io unit :=
  match v with
  | VariantA =>
      if negb (Nat.eqb (List.length params) (count_char "?" query))
      then throw
      else ret tt
  | VariantB => ret tt
  end.

(** From the assembled fetch query to the response. *)
Definition fetch_page (v : variant) (w : Backend) (query : string)
    (params : list param) (total : Z) (pageNum limitNum : num) : io response :=
  _ <- check_params v query params ;;
  games <- select w (Stmt query params) ;;
  ret (Response 200 (games_body games (page_info total pageNum limitNum))).

(** The handler, in the order of its statements.  Each coercion stands
    where the handler calls [parseInt] or [parseFloat] or fills the
    search template; a value without a string makes it throw there,
    before anything is sent. *)
Definition list_games_body (v : variant) (w : Backend) (q : games_query)
  : io response :=
  _ <- coerce (or_default (page q) (VNum (Fin 1))) ;;
  let pageNum := pageNum v q in
  _ <- coerce (or_default (limit q) (VNum (Fin 20))) ;;
  let limitNum := limitNum v q in
  let offset := offset v q in
  _ <- coerce_if (truthy (search q)) (search q) ;;
  _ <- coerce_if (is_given v (minPrice q)) (minPrice q) ;;
  _ <- coerce_if (is_given v (maxPrice q)) (maxPrice q) ;;
  _ <- coerce_if (is_given v (minHours q)) (minHours q) ;;
  _ <- coerce_if (is_given v (maxHours q)) (maxHours q) ;;
  let f := build_filters v q in
  let column := sortColumn q in
  direction <- ([], sortOrder q) ;;
  total <- count w (Stmt (countQuery f) (baseParams f)) ;;
  fetch_page v w (gamesQuery v f column direction limitNum offset)
    (gamesParams v f limitNum offset) total pageNum limitNum.

Definition list_games (v : variant) (w : Backend) (q : games_query)
  : list stmt * response :=
  try_catch (list_games_body v w q) (failure 500 "Error fetching games").

(** *** GET /api/games/:id *)

Definition game_by_id_sql : string :=
  "SELECT " ++
  nl ++ "        id," ++
  nl ++ "        name," ++
  nl ++ "        steam_appid," ++
  nl ++ "        price_usd," ++
  nl ++ "        hours_to_beat," ++
  nl ++ "        cost_per_hour," ++
  nl ++ "        created_at," ++
  nl ++ "        updated_at" ++
  nl ++ "      FROM steam_games " ++
  nl ++ "      WHERE id = ?".

(** [id] is the path segment the route bound. *)
Definition game_by_id (w : Backend) (id : string) : list stmt * response :=
  try_catch
    (if negb (truthy (VStr id)) || isNaN id then
       ret (failure 400 "Invalid game ID")
     else
       rows <- select w (Stmt game_by_id_sql [PVal (VStr id)]) ;;
       match rows with
       | [] => ret (failure 404 "Game not found")
       | game :: _ =>
           ret (Response 200
                  (VObj [("success", VBool true);
                         ("data", VObj [("game", VObj game)])]))
       end)
    (failure 500 "Error fetching game").

(** *** GET /api/games/stats *)

Definition stats_sql : string :=
  nl ++ "      SELECT " ++
  nl ++ "        COUNT(*) as total_games," ++
  nl ++ "        AVG(price_usd) as avg_price," ++
  nl ++ "        MIN(price_usd) as min_price," ++
  nl ++ "        MAX(price_usd) as max_price," ++
  nl ++ "        AVG(hours_to_beat) as avg_hours," ++
  nl ++ "        MIN(hours_to_beat) as min_hours," ++
  nl ++ "        MAX(hours_to_beat) as max_hours," ++
  nl ++ "        AVG(cost_per_hour) as avg_cost_per_hour" ++
  nl ++ "      FROM steam_games" ++
  nl ++ "      WHERE price_usd IS NOT NULL " ++
  nl ++ "        AND hours_to_beat IS NOT NULL " ++
  nl ++ "        AND cost_per_hour IS NOT NULL" ++
  nl ++ "    ".

Definition game_stats (w : Backend) : list stmt * response :=
  try_catch
    (stats <- select w (Stmt stats_sql []) ;;
     ret (Response 200
            (VObj [("success", VBool true);
                   ("data",
                    VObj [("statistics",
                           match stats with
                           | r :: _ => VObj r
                           | [] => VUndef
                           end)])])))
    (failure 500 "Error fetching game statistics").

(** *** The application, for GET requests *)

(** [req.params[name]]; a route always binds its own parameters, and an
    unbound one would be as falsy as the empty string. *)
Definition path_param (name : string) (params : list (string * string))
  : string :=
  match find (fun kv => String.eqb (fst kv) name) params with
  | Some kv => snd kv
  | None => ""
  end.

(** A GET request through the middleware and the routes, for the
    handlers above and the final 404; [None] stands for the answers of
    the handlers that are not modelled (static files and pages, Steam
    appid lookup, owned games, health). *)
Definition serve_get (v : variant) (public_has : list string -> bool)
    (w : Backend) (path : list string) (q : games_query)
  : option (list stmt * response) :=
  match dispatch v public_has GET path with
  | Handler ListGames _ => Some (list_games v w q)
  | Handler GameById params => Some (game_by_id w (path_param "id" params))
  | Handler GameStats _ => Some (game_stats w)
  | EndpointNotFound => Some ([], failure 404 "Endpoint not found")
  | _ => None
  end.

End Server.

Import Server.

(** ** Regular expressions *)

Module Regex.

(** The regular expressions of the signup handler: character classes,
    concatenation, alternation and repetition.  Both are anchored at the
    two ends, so [test] is a match of the whole string. *)
Inductive regex : Type :=
| Never
| Eps
| Class (p : ascii -> bool)
| Seq (r s : regex)
| Alt (r s : regex)
| Star (r : regex).

(** [r+]. *)
Definition Plus (r : regex) : regex := Seq r (Star r).

Fixpoint nullable (r : regex) : bool :=
  match r with
  | Never => false
  | Eps => true
  | Class _ => false
  | Seq r s => nullable r && nullable s
  | Alt r s => nullable r || nullable s
  | Star _ => true
  end.

(** What is left of [r] after reading [c]. *)
Fixpoint deriv (c : ascii) (r : regex) : regex :=
  match r with
  | Never => Never
  | Eps => Never
  | Class p => if p c then Eps else Never
  | Seq r s =>
      if nullable r
      then Alt (Seq (deriv c r) s) (deriv c s)
      else Seq (deriv c r) s
  | Alt r s => Alt (deriv c r) (deriv c s)
  | Star r => Seq (deriv c r) (Star r)
  end.

(** [/^r$/.test(s)]. *)
Fixpoint test (r : regex) (s : string) : bool :=
  match s with
  | EmptyString => nullable r
  | String c s' => test (deriv c r) s'
  end.

(** The strings a regular expression denotes. *)
Inductive accepts : regex -> string -> Prop :=
| AcceptsEps : accepts Eps ""
| AcceptsClass p c : p c = true -> accepts (Class p) (String c "")
| AcceptsSeq r s x y : accepts r x -> accepts s y -> accepts (Seq r s) (x ++ y)
| AcceptsAltL r s x : accepts r x -> accepts (Alt r s) x
| AcceptsAltR r s x : accepts s x -> accepts (Alt r s) x
| AcceptsStarNil r : accepts (Star r) ""
| AcceptsStarCons r x y :
    accepts r x -> accepts (Star r) y -> accepts (Star r) (x ++ y).

End Regex.

(** ** Signup (variant A) *)

Module Accounts.

Import Regex.

(** What a rejected promise carries: an Error object, with the [code]
    the database driver gives its errors (other errors have none). *)
Record error : Type := Error {
  code : option string;
  message : string
}.

Inductive result (A : Type) : Type :=
| Done (a : A)
| Failed (e : error).

Arguments Done {A} a.
Arguments Failed {A} e.

(** The collaborators of the signup handler: [pool.execute] for the two
    lookups, [pool.execute] for the insert (its [insertId]), and
    [bcrypt.hash]. *)
Record Store : Type := {
  find_rows : stmt -> result (list row);
  insert_row : stmt -> result Z;
  bcrypt_hash : string -> Z -> result string
}.

(** The statements sent so far, and a value or the error thrown. *)
Definition run (A : Type) : Type := (list stmt * result A)%type.

Definition pure {A} (a : A) : run A := ([], Done a).

Definition and_then {A B} (m : run A) (f : A -> run B) : run B :=
  match m with
  | (sent, Done a) => let '(sent', r) := f a in ((sent ++ sent')%list, r)
  | (sent, Failed e) => (sent, Failed e)
  end.

Notation "x <~ m ;; k" := (and_then m (fun x => k))
  (at level 61, m at next level, right associativity).

Definition find (w : Store) (s : stmt) : run (list row) := ([s], find_rows w s).

Definition insert (w : Store) (s : stmt) : run Z := ([s], insert_row w s).

Definition hash (w : Store) (password : string) (saltRounds : Z) : run string :=
  ([], bcrypt_hash w password saltRounds).

(** [try { ... } catch (error) { ... }]. *)
Definition catch (m : run response) (handler : error -> response)
  : list stmt * response :=
  match m with
  | (sent, Done r) => (sent, r)
  | (sent, Failed e) => (sent, handler e)
  end.

(** [[a-zA-Z0-9_]]. *)
Definition word_char (c : ascii) : bool :=
  let n := nat_of_ascii c in
  ((97 <=? n) && (n <=? 122) || (65 <=? n) && (n <=? 90)
   || (48 <=? n) && (n <=? 57) || (n =? 95))%nat.

(** [[^\s@]]. *)
Definition plain_char (c : ascii) : bool :=
  negb (is_space c || Ascii.eqb c "@").

Definition is_char (x c : ascii) : bool := Ascii.eqb c x.

(** [/^[a-zA-Z0-9_]+$/]. *)
Definition usernameRegex : regex := Plus (Class word_char).

(** [/^[^\s@]+@[^\s@]+\.[^\s@]+$/]. *)
Definition emailRegex : regex :=
  Seq (Plus (Class plain_char))
    (Seq (Class (is_char "@"))
       (Seq (Plus (Class plain_char))
          (Seq (Class (is_char "."))
             (Plus (Class plain_char))))).

(** [hay.includes(needle)]. *)
Fixpoint includes_text (needle hay : string) : bool :=
  match hay with
  | EmptyString => String.prefix needle hay
  | String _ rest => String.prefix needle hay || includes_text needle rest
  end.

(** A field of the JSON body: a string, or nothing.  The signup form
    posts strings; a body with a number, an array or an object in the
    place of a field is outside this model of the handler. *)
Definition text (f : option string) : string :=
  match f with
  | Some s => s
  | None => ""
  end.

(** [!f]: the field is undefined or the empty string. *)
Definition missing (f : option string) : bool := String.eqb (text f) "".

(** [s.length], for a string of ASCII characters. *)
Definition len (s : string) : Z := Z.of_nat (String.length s).

Definition find_username_sql : string :=
  "SELECT id FROM users WHERE username = ?".

Definition find_email_sql : string :=
  "SELECT id FROM users WHERE email = ?".

Definition insert_user_sql : string :=
  "INSERT INTO users (username, email, password_hash, created_at) VALUES (?, ?, ?, NOW())".

(** The catch block: a duplicate-key error of the insert is answered
    409, by what its message mentions; anything else 500. *)
Definition signup_error (e : error) : response :=
  let duplicate :=
    match code e with
    | Some c => String.eqb c "ER_DUP_ENTRY"
    | None => false
    end in
  if duplicate then
    if includes_text "username" (message e) then
      failure 409 "Username already exists"
    else if includes_text "email" (message e) then
      failure 409 "Email already registered"
    else
      failure 500 "Internal server error"
  else
    failure 500 "Internal server error".

Definition signup_body (w : Store) (username email password : option string)
  : run response :=
  if missing username || missing email || missing password then
    pure (failure 400 "Username, email, and password are required")
  else
    let username := text username in
    let email := text email in
    let password := text password in
    if (len username <? 3) || (20 <? len username) then
      pure (failure 400 "Username must be between 3 and 20 characters")
    else if negb (test usernameRegex username) then
      pure (failure 400 "Username can only contain letters, numbers, and underscores")
    else if negb (test emailRegex email) then
      pure (failure 400 "Please enter a valid email address")
    else if len password <? 6 then
      pure (failure 400 "Password must be at least 6 characters long")
    else
      existingUsername <~ find w (Stmt find_username_sql [PVal (VStr username)]) ;;
      if (0 <? List.length existingUsername)%nat then
        pure (failure 409 "Username already exists")
      else
        existingEmail <~ find w (Stmt find_email_sql [PVal (VStr email)]) ;;
        if (0 <? List.length existingEmail)%nat then
          pure (failure 409 "Email already registered")
        else
          passwordHash <~ hash w password 12 ;;
          userId <~ insert w (Stmt insert_user_sql
                                [PVal (VStr username); PVal (VStr email);
                                 PVal (VStr passwordHash)]) ;;
          pure (Response 201
                  (VObj [("success", VBool true);
                         ("message", VStr "Account created successfully");
                         ("user",
                          VObj [("id", VNum (Fin userId));
                                ("username", VStr username);
                                ("email", VStr email)])])).

Definition signup (w : Store) (username email password : option string)
  : list stmt * response :=
  catch (signup_body w username email password) signup_error.

End Accounts.

(** ** GET /api/games/steam/:appid *)

Module Catalog.

Definition game_by_steam_id_sql : string :=
  "SELECT " ++
  nl ++ "        id," ++
  nl ++ "        name," ++
  nl ++ "        steam_appid," ++
  nl ++ "        price_usd," ++
  nl ++ "        hours_to_beat," ++
  nl ++ "        cost_per_hour," ++
  nl ++ "        created_at," ++
  nl ++ "        updated_at" ++
  nl ++ "      FROM steam_games " ++
  nl ++ "      WHERE steam_appid = ?".

(** [appid] is the path segment the route bound. *)
Definition game_by_steam_id (w : Backend) (appid : string)
  : list stmt * response :=
  try_catch
    (if negb (truthy (VStr appid)) || isNaN appid then
       ret (failure 400 "Invalid Steam App ID")
     else
       rows <- select w (Stmt game_by_steam_id_sql [PVal (VStr appid)]) ;;
       match rows with
       | [] => ret (failure 404 "Game not found")
       | game :: _ =>
           ret (Response 200
                  (VObj [("success", VBool true);
                         ("data", VObj [("game", VObj game)])]))
       end)
    (failure 500 "Error fetching game").

End Catalog.

(** ** The dashboard page *)

Module Dashboard.

(** The two globals of the page script that pagination reads and
    writes. *)
Record globals : Type := Globals {
  currentPage : Z;
  totalPages : Z
}.

(** The [pagination] object of a listing response; [page] and [pages]
    are its currentPage and totalPages.  The metadata are integers (JSON
    has no NaN: variant B's NaN would arrive as null, which is not
    modelled). *)
Record pagination : Type := Pagination {
  page : Z;
  pages : Z;
  totalGames : Z;
  gamesPerPage : Z;
  hasNextPage : bool;
  hasPrevPage : bool
}.

(** [changePage(page)]: the new globals, and whether [loadGames] is
    called. *)
Definition changePage (page : Z) (g : globals) : globals * bool :=
  if (1 <=? page) && (page <=? totalPages g)
  then (Globals page (totalPages g), true)
  else (g, false).

(** The values of [i] in [for (let i = first; i <= last; i++)]. *)
Definition from_to (first last : Z) : list Z :=
  map (fun k => first + Z.of_nat k) (seq 0 (Z.to_nat (last - first + 1))).

(** The page numbers the pager lists. *)
Definition page_window (currentPage totalPages : Z) : list Z :=
  let startPage := Z.max 1 (currentPage - 2) in
  let endPage := Z.min totalPages (currentPage + 2) in
  from_to startPage endPage.

(** The two ends of the range in the line under the pager. *)
Definition showing_from (p : pagination) : Z :=
  (page p - 1) * gamesPerPage p + 1.

Definition showing_to (p : pagination) : Z :=
  Z.min (page p * gamesPerPage p) (totalGames p).

Definition dq : string := String (ascii_of_nat 34) EmptyString.

(** [name="value"]. *)
Definition attr (name value : string) : string :=
  name ++ "=" ++ dq ++ value ++ dq.

Definition int (z : Z) : string := num_to_string (Fin z).

Definition link (target : Z) (label : string) : string :=
  "<a " ++ attr "class" "page-link" ++ " " ++ attr "href" "#" ++ " "
  ++ attr "onclick" ("changePage(" ++ int target ++ ")") ++ ">" ++ label ++ "</a>".

Definition page_item (currentPage i : Z) : string :=
  "<li " ++ attr "class" ("page-item " ++ (if i =? currentPage then "active" else ""))
  ++ ">" ++ nl ++ "          " ++ link i (int i) ++ nl ++ "        </li>".

(** [updatePagination(pagination)]: the globals it leaves and the HTML it
    puts in the pager. *)
Definition updatePagination (p : pagination) : globals * string :=
  let totalPages := pages p in
  let currentPage := page p in
  let g := Globals currentPage totalPages in
  if totalPages <=? 1 then (g, "")
  else
    let html := "<nav><ul " ++ attr "class" "pagination" ++ ">" in
    let html :=
      if hasPrevPage p
      then html ++ "<li " ++ attr "class" "page-item" ++ ">"
           ++ link (currentPage - 1) "Previous" ++ "</li>"
      else html in
    let html :=
      fold_left (fun acc i => acc ++ page_item currentPage i)
        (page_window currentPage totalPages) html in
    let html :=
      if hasNextPage p
      then html ++ "<li " ++ attr "class" "page-item" ++ ">"
           ++ link (currentPage + 1) "Next" ++ "</li>"
      else html in
    let html := html ++ "</ul></nav>" in
    let html :=
      html ++ "<div " ++ attr "class" "mt-2 text-center" ++ ">"
      ++ nl ++ "        <small " ++ attr "class" "text-muted" ++ ">"
      ++ nl ++ "          Showing " ++ int (showing_from p) ++ " to "
      ++ nl ++ "          " ++ int (showing_to p) ++ " "
      ++ nl ++ "          of " ++ int (totalGames p) ++ " games"
      ++ nl ++ "        </small>"
      ++ nl ++ "      </div>" in
    (g, html).

End Dashboard.

(** ** A reference engine for the users table *)

Module Users.

Import Accounts.

(** A row of [users]. *)
Record user : Type := User {
  user_id : Z;
  user_name : string;
  user_email : string;
  user_hash : string
}.

(** What the handlers do not decide: how the engine compares two
    strings ([same], the collation of the columns), whether the two
    columns carry a unique key, and the two functions of bcrypt. *)
Record setting : Type := Setting {
  same : string -> string -> bool;
  unique_keys : bool;
  hash_of : string -> Z -> result string;
  verify : jsval -> jsval -> option bool
}.

Definition named (c : setting) (u : string) (t : list user) : list user :=
  filter (fun x => same c (user_name x) u) t.

Definition mailed (c : setting) (e : string) (t : list user) : list user :=
  filter (fun x => same c (user_email x) e) t.

(** The next value of the AUTO_INCREMENT column. *)
Definition next_id (t : list user) : Z :=
  1 + fold_right Z.max 0 (map user_id t).

Definition id_row (x : user) : row := [("id", VNum (Fin (user_id x)))].

Definition unknown_statement : error := Error None "unknown statement".

Definition duplicate_entry (key value : string) : error :=
  Error (Some "ER_DUP_ENTRY")
    ("Duplicate entry '" ++ value ++ "' for key 'users." ++ key ++ "'").

(** The answer of the engine to an insert into a table [t]: the new row,
    or the error of a unique key. *)
Definition inserted (c : setting) (t : list user) (s : stmt) : result user :=
  match args s with
  | [PVal (VStr u); PVal (VStr e); PVal (VStr h)] =>
      if negb (String.eqb (sql s) insert_user_sql) then Failed unknown_statement
      else if unique_keys c && (0 <? List.length (named c u t))%nat then
        Failed (duplicate_entry "username" u)
      else if unique_keys c && (0 <? List.length (mailed c e t))%nat then
        Failed (duplicate_entry "email" e)
      else Done (User (next_id t) u e h)
  | _ => Failed unknown_statement
  end.

(** The store the signup handler talks to, on a table [t]. *)
Definition signup_store (c : setting) (t : list user) : Store :=
  {| find_rows := fun s =>
       match args s with
       | [PVal (VStr x)] =>
           if String.eqb (sql s) find_username_sql
           then Done (map id_row (named c x t))
           else if String.eqb (sql s) find_email_sql
           then Done (map id_row (mailed c x t))
           else Failed unknown_statement
       | _ => Failed unknown_statement
       end;
     insert_row := fun s =>
       match inserted c t s with
       | Done x => Done (user_id x)
       | Failed e => Failed e
       end;
     bcrypt_hash := hash_of c |}.

(** The table after the statements a handler sent: an insert the engine
    accepted has added its row, a lookup has changed nothing. *)
Definition after_stmt (c : setting) (t : list user) (s : stmt) : list user :=
  match inserted c t s with
  | Done x => (t ++ [x])%list
  | Failed _ => t
  end.

Definition after (c : setting) (t : list user) (sent : list stmt) : list user :=
  fold_left (after_stmt c) sent t.

Definition login_row (v : variant) (x : user) : row :=
  match v with
  | VariantA =>
      [("id", VNum (Fin (user_id x))); ("username", VStr (user_name x));
       ("password_hash", VStr (user_hash x))]
  | VariantB =>
      [("username", VStr (user_name x)); ("password_hash", VStr (user_hash x))]
  end.

(** The backend the login handler talks to, on a table [t]. *)
Definition login_backend (c : setting) (v : variant) (t : list user) : Backend :=
  {| run_select := fun s =>
       match args s with
       | [PVal (VStr u)] =>
           if String.eqb (sql s) (login_sql v)
           then Some (map (login_row v) (named c u t))
           else None
       | _ => None
       end;
     run_count := fun _ => None;
     bcrypt_compare := verify c |}.

(** No two rows of the table have the same username, nor the same
    address. *)
Definition distinct_by (c : setting) (key : user -> string) (t : list user) : Prop :=
  forall i j x y,
    nth_error t i = Some x -> nth_error t j = Some y ->
    same c (key x) (key y) = true -> i = j.

End Users.

(** ** Vocabulary of the properties *)

(** Every character of [s] satisfies [p]. *)
Fixpoint every (p : ascii -> bool) (s : string) : bool :=
  match s with
  | EmptyString => true
  | String c r => p c && every p r
  end.

(** A string of ASCII characters: the strings on which spaces, letter
    case and length are in the embedding what they are in JavaScript. *)
Definition ascii_text (s : string) : bool :=
  every (fun c => (nat_of_ascii c <? 128)%nat) s.

(** A value whose strings are ASCII, as far as [ToString] reads them. *)
Fixpoint ascii_value (v : jsval) : bool :=
  match v with
  | VStr s => ascii_text s
  | VArr l => forallb ascii_value l
  | _ => true
  end.

(** A path written without percent-escapes. *)
Definition verbatim (path : list string) : bool :=
  forallb (fun s => Nat.eqb (count_char "%" s) 0) path.

(** The page numbers, 2^46 at most, with which the offset stays below
    2^53 whatever the page size, and the row counts, below 2^45, whose
    quotient by a page size binary64 rounds to the right side of every
    integer: within them the arithmetic of the embedding is that of
    JavaScript. *)
Definition exact_pages : Z := 70368744177664.

Definition exact_rows : Z := 35184372088832.

(** The five predicates, in the order the handler tests them. *)
Definition fixed_predicates : list string :=
  ["name LIKE ?"; "price_usd >= ?"; "price_usd <= ?";
   "hours_to_beat >= ?"; "hours_to_beat <= ?"].

Fixpoint pick {A} (mask : list bool) (l : list A) : list A :=
  match mask, l with
  | b :: mask', x :: l' => if b then x :: pick mask' l' else pick mask' l'
  | _, _ => []
  end.

Definition filter_mask (v : variant) (q : games_query) : list bool :=
  [truthy (search q); is_given v (minPrice q); is_given v (maxPrice q);
   is_given v (minHours q); is_given v (maxHours q)].

Definition filter_values (q : games_query) : list param :=
  [PVal (VStr ("%" ++ ToString (search q) ++ "%"));
   PFloat (parseFloat (minPrice q)); PFloat (parseFloat (maxPrice q));
   PFloat (parseFloat (minHours q)); PFloat (parseFloat (maxHours q))].

(** The two statements of the listing handler. *)
Definition count_stmt (v : variant) (q : games_query) : stmt :=
  Stmt (countQuery (build_filters v q)) (baseParams (build_filters v q)).

Definition fetch_stmt (v : variant) (q : games_query) (d : string) : stmt :=
  Stmt (gamesQuery v (build_filters v q) (sortColumn q) d (limitNum v q) (offset v q))
       (gamesParams v (build_filters v q) (limitNum v q) (offset v q)).

Definition games_error : response := failure 500 "Error fetching games".

(** The values the listing handler coerces to strings: the page, the
    limit, and the filters it takes. *)
Definition coerced (v : variant) (q : games_query) : list jsval :=
  (or_default (page q) (VNum (Fin 1)) :: or_default (limit q) (VNum (Fin 20))
   :: pick (filter_mask v q)
        [search q; minPrice q; maxPrice q; minHours q; maxHours q])%list.

Definition coerces (v : variant) (q : games_query) : bool :=
  forallb coercible (coerced v q).

(** A request that the embedding reads to the letter: the values the
    handler coerces have a string, and the strings of the query are
    ASCII. *)
Definition ascii_query (q : games_query) : bool :=
  forallb ascii_value
    [search q; minPrice q; maxPrice q; minHours q; maxHours q;
     sortBy q; order q; page q; limit q].

Definition plain_query (v : variant) (q : games_query) : bool :=
  coerces v q && ascii_query q.

(** The texts of the two statements, around the where clause of the
    filters that are present. *)
Definition where_of (v : variant) (q : games_query) : string :=
  where_text (pick (filter_mask v q) fixed_predicates).

Definition count_text (v : variant) (q : games_query) : string :=
  "SELECT COUNT(*) as total FROM steam_games " ++ where_of v q.

Definition fetch_text (v : variant) (q : games_query) (column direction : string)
    (limitNum offset : num) : string :=
  games_select v ++ where_of v q
  ++ games_order_page v (VStr column) direction limitNum offset.

(** The four price and hour bounds, with the query property and the
    predicate of each. *)
Inductive bound : Type :=
| MinPrice
| MaxPrice
| MinHours
| MaxHours.

Definition bound_value (b : bound) (q : games_query) : jsval :=
  match b with
  | MinPrice => minPrice q
  | MaxPrice => maxPrice q
  | MinHours => minHours q
  | MaxHours => maxHours q
  end.

Definition bound_predicate (b : bound) : string :=
  match b with
  | MinPrice => "price_usd >= ?"
  | MaxPrice => "price_usd <= ?"
  | MinHours => "hours_to_beat >= ?"
  | MaxHours => "hours_to_beat <= ?"
  end.


(** ** Sample requests and backends *)

(** A request with no query string. *)
Definition bare_request : games_query :=
  GamesQuery VUndef VUndef VUndef VUndef VUndef VUndef VUndef VUndef VUndef.

(** [?page=abc] and [?limit=abc]. *)
Definition page_abc : games_query :=
  GamesQuery VUndef VUndef VUndef VUndef VUndef VUndef VUndef (VStr "abc") VUndef.

Definition limit_abc : games_query :=
  GamesQuery VUndef VUndef VUndef VUndef VUndef VUndef VUndef VUndef (VStr "abc").

(** An engine with no rows at all, and a hash check that always fails. *)
Definition empty_backend : Backend :=
  {| run_select := fun _ => Some [];
     run_count := fun _ => Some 0;
     bcrypt_compare := fun _ _ => Some false |}.

(** A [public] directory that holds no file under [api]. *)
Definition no_public_file : list string -> bool := fun _ => false.



(** [?minPrice=abc]. *)
Definition min_price_abc : games_query :=
  GamesQuery VUndef (VStr "abc") VUndef VUndef VUndef VUndef VUndef VUndef VUndef.

(** A text with one placeholder, to be run with no parameter. *)
Definition one_placeholder : string := "SELECT ?".


(** [?order=descending]. *)
Definition order_descending : games_query :=
  GamesQuery VUndef VUndef VUndef VUndef VUndef VUndef (VStr "descending")
    VUndef VUndef.

(** [?search=portal&sortBy=price_usd&order=DESC&page=1&limit=5]. *)
Definition portal_request : games_query :=
  GamesQuery (VStr "portal") VUndef VUndef VUndef VUndef
    (VStr "price_usd") (VStr "DESC") (VStr "1") (VStr "5").




(** ** Vocabulary of the further properties *)

(** A non-empty string without spaces and without an at sign. *)
Definition plain (s : string) : Prop :=
  s <> "" /\ every Accounts.plain_char s = true.

(** [local@domain.tld]: three plain parts around an at sign and a dot.
    The domain part may itself hold dots. *)
Definition email_shape (s : string) : Prop :=
  exists a b c, s = a ++ "@" ++ b ++ "." ++ c /\ plain a /\ plain b /\ plain c.

(** What the signup handler asks of a body before it turns to the
    database. *)
Definition well_formed_signup (username email password : option string) : Prop :=
  exists u e p,
    username = Some u /\ email = Some e /\ password = Some p
    /\ (3 <= String.length u <= 20)%nat
    /\ every Accounts.word_char u = true
    /\ email_shape e
    /\ (6 <= String.length p)%nat.

(** A body whose three fields, where present, are strings of ASCII
    characters. *)
Definition ascii_body (username email password : option string) : bool :=
  ascii_text (Accounts.text username) && ascii_text (Accounts.text email)
  && ascii_text (Accounts.text password).

(** The three statements of a signup. *)
Definition find_username_stmt (u : string) : stmt :=
  Stmt Accounts.find_username_sql [PVal (VStr u)].

Definition find_email_stmt (e : string) : stmt :=
  Stmt Accounts.find_email_sql [PVal (VStr e)].

Definition insert_user_stmt (u e h : string) : stmt :=
  Stmt Accounts.insert_user_sql [PVal (VStr u); PVal (VStr e); PVal (VStr h)].

(** The listing response's pagination as the dashboard reads it, when
    all its numbers are integers. *)
Definition dashboard_view (p : Server.pagination) : option Dashboard.pagination :=
  match Server.currentPage p, Server.totalPages p, Server.totalGames p,
        Server.gamesPerPage p with
  | Fin c, Fin t, Fin n, Fin l =>
      Some (Dashboard.Pagination c t n l
              (Server.hasNextPage p) (Server.hasPrevPage p))
  | _, _, _, _ => None
  end.

(** The body of a 201. *)
Definition created_body (id : Z) (u e : string) : jsval :=
  VObj [("success", VBool true);
        ("message", VStr "Account created successfully");
        ("user",
         VObj [("id", VNum (Fin id)); ("username", VStr u); ("email", VStr e)])].

(** A decimal digit. *)
Definition is_digit (c : ascii) : bool :=
  let n := nat_of_ascii c in ((48 <=? n) && (n <=? 57))%nat.

(** [word] occurs in [text]. *)
Definition holds (word text : string) : Prop :=
  exists a b, text = a ++ word ++ b.

(** ** Further samples *)

(** A store with no user, whose inserts succeed with id 7. *)
Definition empty_store : Accounts.Store :=
  {| Accounts.find_rows := fun _ => Accounts.Done [];
     Accounts.insert_row := fun _ => Accounts.Done 7;
     Accounts.bcrypt_hash := fun p _ => Accounts.Done ("$2b$12$" ++ p) |}.

(** The error MySQL raises when the address username@x.io is already
    taken: it names the email key, and quotes the address. *)
Definition duplicate_email_error : Accounts.error :=
  Accounts.Error (Some "ER_DUP_ENTRY")
    "Duplicate entry 'username@x.io' for key 'users.email'".

(** A store whose lookups find nothing but whose insert runs into that
    error (another signup took the address in between). *)
Definition racing_store : Accounts.Store :=
  {| Accounts.find_rows := fun _ => Accounts.Done [];
     Accounts.insert_row := fun _ => Accounts.Failed duplicate_email_error;
     Accounts.bcrypt_hash := fun p _ => Accounts.Done ("$2b$12$" ++ p) |}.

(** The portal request with a search text that tries to close the
    string and add a condition. *)
Definition quoting_request : games_query :=
  GamesQuery (VStr "' OR 1=1 --") VUndef VUndef VUndef VUndef
    (VStr "price_usd") (VStr "DESC") (VStr "1") (VStr "5").

(** Pages 2 and 3 of the portal request. *)
Definition portal_page_two : games_query :=
  GamesQuery (VStr "portal") VUndef VUndef VUndef VUndef
    (VStr "price_usd") (VStr "DESC") (VStr "2") (VStr "5").

Definition portal_page_three : games_query :=
  GamesQuery (VStr "portal") VUndef VUndef VUndef VUndef
    (VStr "price_usd") (VStr "DESC") (VStr "3") (VStr "5").

(** A request full of values that do not parse. *)
Definition garbage_request : games_query :=
  GamesQuery (VArr [VStr "a"; VStr "b"]) (VStr "abc") (VObj []) (VStr "-")
    (VStr "1e999") (VStr "; DROP") VUndef (VStr "-7") (VStr "x").

(** An engine that accepts every statement: it counts 12 rows and
    selects none. *)
Definition willing_backend : Backend :=
  {| run_select := fun _ => Some [];
     run_count := fun _ => Some 12;
     bcrypt_compare := fun _ _ => None |}.

(** An engine that compares strings as they are and has no unique key,
    with a bcrypt that prefixes the password. *)
Definition plain_setting : Users.setting :=
  {| Users.same := String.eqb;
     Users.unique_keys := false;
     Users.hash_of := fun p _ => Accounts.Done ("$2b$12$" ++ p);
     Users.verify := fun p h =>
       match p, h with
       | VStr p, VStr h => Some (String.eqb h ("$2b$12$" ++ p))
       | _, _ => None
       end |}.

Definition one_user : list Users.user :=
  [Users.User 1 "alice_1" "a@b.co" "$2b$12$secret1"].

(** * Properties *)

(** ** The built-ins on sample strings *)

Example parseInt_hex_sign : parseInt (VStr "  -0x1fz") = Fin (-31).
Proof. reflexivity. Qed.

Example parseInt_prefix : parseInt (VStr "12px") = Fin 12.
Proof. reflexivity. Qed.

Example parseInt_letters : parseInt (VStr "abc") = NaN.
Proof. reflexivity. Qed.

Example parseInt_number : parseInt (VNum (Fin 20)) = Fin 20.
Proof. reflexivity. Qed.

Example parseInt_array : parseInt (VArr [VStr "7"; VStr "8"]) = Fin 7.
Proof. reflexivity. Qed.

Example parseFloat_prefix : parseFloat (VStr "1.5e3x") = FDec false 15 2.
Proof. reflexivity. Qed.

Example parseFloat_dot : parseFloat (VStr ".") = FNaN.
Proof. reflexivity. Qed.

Example parseFloat_fraction : parseFloat (VStr "-.5") = FDec true 5 (-1).
Proof. reflexivity. Qed.

Example parseFloat_bare_exponent : parseFloat (VStr "1e") = FDec false 1 0.
Proof. reflexivity. Qed.

Example Number_prefix : StringToNumber "12px" = FNaN.
Proof. reflexivity. Qed.

Example Number_signed_hex : StringToNumber "+0x10" = FNaN.
Proof. reflexivity. Qed.

Example Number_trimmed : StringToNumber " 12 " = FDec false 12 0.
Proof. reflexivity. Qed.

Example Number_exponent : StringToNumber "1e3" = FDec false 1 3.
Proof. reflexivity. Qed.

Example Number_hex : StringToNumber "0x10" = FDec false 16 0.
Proof. reflexivity. Qed.

Example Number_infinity : StringToNumber "Infinity" = FInf false.
Proof. reflexivity. Qed.

Example toUpperCase_mixed : toUpperCase "dEsc" = "DESC".
Proof. reflexivity. Qed.

Example ToString_nested :
  ToString (VArr [VStr "a"; VNull; VArr [VStr "b"; VStr "c"]; VObj []])
  = "a,,b,c,[object Object]".
Proof. reflexivity. Qed.

(** ** Placeholders and parameters *)

Lemma count_char_app c (a b : string) :
  count_char c (a ++ b) = (count_char c a + count_char c b)%nat.
Proof.
  induction a as [|d a IH]; simpl; [reflexivity|].
  rewrite IH. lia.
Qed.

Lemma count_char_uint d : count_char "?" (NilEmpty.string_of_uint d) = 0%nat.
Proof. induction d; simpl; auto. Qed.

Lemma num_to_string_no_placeholder n : count_char "?" (num_to_string n) = 0%nat.
Proof.
  destruct n as [|z| |]; try reflexivity.
  unfold num_to_string, NilZero.string_of_int, NilZero.string_of_uint.
  destruct (Z.to_int z) as [d|d]; destruct d; simpl; auto using count_char_uint.
Qed.

Create Rewrite HintDb placeholders.

#[local] Hint Rewrite count_char_app num_to_string_no_placeholder : placeholders.

(** Conditions that hold one question mark each, joined by [" AND "],
    hold as many question marks as there are conditions. *)
Lemma count_char_where conditions :
  Forall (fun c => count_char "?" c = 1%nat) conditions ->
  count_char "?" (where_text conditions) = List.length conditions.
Proof.
  unfold where_text. intros H.
  destruct conditions as [|c cs]; [reflexivity|].
  change (0 <? List.length (c :: cs))%nat with true. cbv iota.
  rewrite count_char_app. change (count_char "?" "WHERE ") with 0%nat.
  revert c H. induction cs as [|c' cs IH]; intros c H.
  - inversion H; subst. simpl. lia.
  - inversion H as [|? ? Hc Hcs]; subst.
    change (String.concat " AND " (c :: c' :: cs))
      with (c ++ " AND " ++ String.concat " AND " (c' :: cs)).
    rewrite !count_char_app, Hc.
    specialize (IH c' Hcs). simpl in IH |- *. lia.
Qed.

Lemma pick_length {A B} mask (l : list A) (l' : list B) :
  List.length l = List.length l' ->
  List.length (pick mask l) = List.length (pick mask l').
Proof.
  revert l l'. induction mask as [|b mask IH]; intros [|x l] [|y l'] H;
    simpl in *; try discriminate; auto.
  destruct b; simpl; auto.
Qed.

Lemma pick_Forall {A} (P : A -> Prop) mask l :
  Forall P l -> Forall P (pick mask l).
Proof.
  revert l. induction mask as [|b mask IH]; intros [|x l] H; simpl; auto.
  inversion H; subst. destruct b; auto.
Qed.

Lemma sortColumn_allowed q :
  exists s, sortColumn q = VStr s /\ In s validSortColumns.
Proof.
  unfold sortColumn.
  destruct (includes validSortColumns (or_default (sortBy q) (VStr "name"))) eqn:E.
  - destruct (or_default (sortBy q) (VStr "name")) as [| | | |s| |];
      try discriminate.
    exists s. split; [reflexivity|].
    unfold includes in E. apply existsb_exists in E. destruct E as [x [Hin Hx]].
    apply String.eqb_eq in Hx. now subst.
  - exists "name". split; [reflexivity|]. simpl. auto.
Qed.

Lemma sortOrder_cases q d :
  sortOrder q = Returned d -> d = "ASC" \/ d = "DESC".
Proof.
  unfold sortOrder.
  destruct (or_default (order q) (VStr "ASC")); try discriminate.
  destruct (String.eqb (toUpperCase s) "DESC"); intros [= <-]; auto.
Qed.

Lemma bind_ret {A B} (a : A) (f : A -> io B) : bind (ret a) f = f a.
Proof. unfold bind, ret. destruct (f a). reflexivity. Qed.

Lemma coerce_bind {A} x (k : io A) :
  (_ <- coerce x ;; k) = if coercible x then k else throw.
Proof. unfold coerce. destruct (coercible x); [apply bind_ret | reflexivity]. Qed.

Lemma coerce_if_bind {A} taken x (k : io A) :
  (_ <- coerce_if taken x ;; k)
  = if taken then (if coercible x then k else throw) else k.
Proof.
  unfold coerce_if. destruct taken; [apply coerce_bind | apply bind_ret].
Qed.

Section Listing.

Variable v : variant.
Variable q : games_query.

(** The five tests of the handler, read as a selection among the five
    predicates and their five values. *)
Lemma build_filters_pick :
  build_filters v q =
  Filters (pick (filter_mask v q) fixed_predicates)
          (pick (filter_mask v q) (filter_values q)).
Proof.
  unfold build_filters, filter_mask, filter_values, fixed_predicates, push.
  destruct (truthy (search q)), (is_given v (minPrice q)),
    (is_given v (maxPrice q)), (is_given v (minHours q)),
    (is_given v (maxHours q)); reflexivity.
Qed.

Lemma build_filters_balanced :
  List.length (whereConditions (build_filters v q)) =
  List.length (baseParams (build_filters v q)).
Proof.
  rewrite build_filters_pick. cbn [whereConditions baseParams].
  now apply pick_length.
Qed.

Lemma build_filters_placeholders :
  count_char "?" (whereClause (build_filters v q)) =
  List.length (baseParams (build_filters v q)).
Proof.
  rewrite <- build_filters_balanced. unfold whereClause.
  apply count_char_where. rewrite build_filters_pick.
  cbn [whereConditions]. apply pick_Forall. repeat constructor.
Qed.

(** The assembled fetch query always has as many question marks as it
    has parameters. *)
Lemma gamesQuery_balanced d :
  sortOrder q = Returned d ->
  List.length (gamesParams v (build_filters v q) (limitNum v q) (offset v q)) =
  count_char "?"
    (gamesQuery v (build_filters v q) (sortColumn q) d (limitNum v q) (offset v q)).
Proof.
  intros Hd. unfold gamesQuery, gamesParams.
  rewrite !count_char_app, build_filters_placeholders, length_app.
  destruct (sortColumn_allowed q) as [s [-> Hs]].
  assert (Hcol : count_char "?" s = 0%nat).
  { simpl in Hs. decompose [or] Hs; subst; try reflexivity; contradiction. }
  assert (Hdir : count_char "?" d = 0%nat).
  { destruct (sortOrder_cases q d Hd); subst; reflexivity. }
  destruct v; unfold games_order_page, games_select, page_params;
    autorewrite with placeholders;
    cbn [ToString]; rewrite Hcol, Hdir; simpl; lia.
Qed.

(** The coercions of the handler come first and send nothing: the
    handler throws there exactly when one of the values it coerces has
    no string. *)
Lemma list_games_body_coerced w :
  list_games_body v w q =
  if coerces v q then
    direction <- ([], sortOrder q) ;;
    total <- count w (Stmt (countQuery (build_filters v q))
                           (baseParams (build_filters v q))) ;;
    fetch_page v w
      (gamesQuery v (build_filters v q) (sortColumn q) direction
         (limitNum v q) (offset v q))
      (gamesParams v (build_filters v q) (limitNum v q) (offset v q))
      total (pageNum v q) (limitNum v q)
  else throw.
Proof.
  unfold list_games_body. rewrite !coerce_bind, !coerce_if_bind.
  unfold coerces, coerced, filter_mask. cbn [forallb].
  destruct (coercible (or_default (page q) _)); [|reflexivity].
  destruct (coercible (or_default (limit q) _)); [|reflexivity].
  cbn [andb].
  destruct (truthy (search q)); cbn [pick forallb andb];
    [destruct (coercible (search q)); [|reflexivity]|];
    cbn [negb andb];
    (destruct (is_given v (minPrice q)); cbn [pick forallb andb];
     [destruct (coercible (minPrice q)); [|reflexivity]|]);
    cbn [negb andb];
    (destruct (is_given v (maxPrice q)); cbn [pick forallb andb];
     [destruct (coercible (maxPrice q)); [|reflexivity]|]);
    cbn [negb andb];
    (destruct (is_given v (minHours q)); cbn [pick forallb andb];
     [destruct (coercible (minHours q)); [|reflexivity]|]);
    cbn [negb andb];
    (destruct (is_given v (maxHours q)); cbn [pick forallb andb];
     [destruct (coercible (maxHours q)); [|reflexivity]|]);
    reflexivity.
Qed.

(** What the listing handler sends and answers, case by case. *)
Lemma list_games_run w :
  list_games v w q =
  if coerces v q then
    match sortOrder q with
    | Thrown => ([], games_error)
    | Returned d =>
        match run_count w (count_stmt v q) with
        | None => ([count_stmt v q], games_error)
        | Some total =>
            match run_select w (fetch_stmt v q d) with
            | None => ([count_stmt v q; fetch_stmt v q d], games_error)
            | Some games =>
                ([count_stmt v q; fetch_stmt v q d],
                 Response 200
                   (games_body games
                      (page_info total (pageNum v q) (limitNum v q))))
            end
        end
    end
  else ([], games_error).
Proof.
  unfold list_games. rewrite list_games_body_coerced.
  destruct (coerces v q); [|reflexivity].
  unfold count_stmt, fetch_stmt.
  destruct (sortOrder q) as [d|] eqn:Hd; [|reflexivity].
  unfold bind at 1. unfold count, bind at 1.
  destruct (run_count w _) as [total|]; [|reflexivity].
  unfold fetch_page, check_params.
  pose proof (gamesQuery_balanced d Hd) as Hbal.
  destruct v.
  - rewrite Hbal, Nat.eqb_refl. simpl.
    destruct (run_select w _); reflexivity.
  - simpl. destruct (run_select w _); reflexivity.
Qed.

(** Nothing but the count statement and the fetch statement is sent. *)
Lemma list_games_sent w s :
  In s (fst (list_games v w q)) ->
  s = count_stmt v q
  \/ exists d, sortOrder q = Returned d /\ s = fetch_stmt v q d.
Proof.
  rewrite list_games_run.
  destruct (coerces v q); [|intros []].
  destruct (sortOrder q) as [d|]; [|intros []].
  destruct (run_count w _) as [total|].
  - destruct (run_select w _); cbn [fst In];
      intros [<- | [<- | []]]; eauto.
  - cbn [fst In]. intros [<- | []]; auto.
Qed.

(** The two statements, written out around the where clause. *)
Lemma count_stmt_text : sql (count_stmt v q) = count_text v q.
Proof.
  unfold count_stmt, countQuery, whereClause, count_text, where_of. cbn [sql].
  now rewrite build_filters_pick.
Qed.

Lemma fetch_stmt_text d :
  exists column,
    sortColumn q = VStr column /\ In column validSortColumns
    /\ sql (fetch_stmt v q d)
       = fetch_text v q column d (limitNum v q) (offset v q)
    /\ args (fetch_stmt v q d)
       = (args (count_stmt v q) ++ page_params v (limitNum v q) (offset v q))%list.
Proof.
  destruct (sortColumn_allowed q) as [c [Hc Hin]].
  exists c. split; [exact Hc|]. split; [exact Hin|].
  unfold fetch_stmt, gamesQuery, gamesParams, whereClause, fetch_text, where_of,
    count_stmt.
  cbn [sql args]. rewrite build_filters_pick, Hc. split; reflexivity.
Qed.

End Listing.

(** ** Routing *)

Lemma game_stats_never_first v m path ps :
  first_match (routes v) m path <> Some (GameStats, ps).
Proof.
  intros E.
  destruct v, m; cbn in E;
    repeat match type of E with
           | context [match ?p with nil => _ | cons _ _ => _ end] =>
               is_var p; destruct p; cbn in E
           | context [if ?b then _ else _] => destruct b eqn:?; cbn in E
           end;
    try discriminate;
    repeat match goal with
           | H : String.eqb ?s "" = true |- _ =>
               apply String.eqb_eq in H; subst s
           end;
    discriminate.
Qed.

(** ** The statistics route *)

Lemma game_stats_status w :
  status (snd (game_stats w)) = 200 \/ status (snd (game_stats w)) = 500.
Proof.
  unfold game_stats, select, bind, try_catch.
  destruct (run_select w _); simpl; auto.
Qed.

(** C1 (the code departs from the claim).  A GET of /api/games/stats
    never reaches the statistics handler.  In both variants the route
    /api/games/:id is registered first and matches the path with
    id = stats; its handler finds that the id is not a number and
    answers 400 Invalid game ID without sending any statement: that is
    the response to the request, unless the public directory happens to
    hold a file of that path.  No request at all is dispatched to the
    statistics handler, whose answer (status 200 or 500) is therefore
    never given. *)
Theorem stats_route_shadowed :
  (forall v,
      first_match (routes v) GET ["api"; "games"; "stats"]
      = Some (GameById, [("id", "stats")]))
  /\ (forall w, game_by_id w "stats" = ([], failure 400 "Invalid game ID"))
  /\ (forall v public_has m path ps,
         dispatch v public_has m path <> Handler GameStats ps)
  /\ (forall w, snd (game_by_id w "stats") <> snd (game_stats w))
  /\ (forall v public_has w q,
         public_has ["api"; "games"; "stats"] = false ->
         serve_get v public_has w ["api"; "games"; "stats"] q
         = Some ([], failure 400 "Invalid game ID")).
Proof.
  split; [intros []; reflexivity|].
  split; [reflexivity|].
  split; [|split].
  - intros v public_has m path ps. unfold dispatch.
    destruct (reads m && public_has path); [discriminate|].
    destruct (first_match (routes v) m path) as [[h ps']|] eqn:E;
      [|discriminate].
    intros [= -> ->]. now apply game_stats_never_first in E.
  - intros w E.
    assert (H : status (snd (game_by_id w "stats")) = 400) by reflexivity.
    rewrite E in H. destruct (game_stats_status w); congruence.
  - intros v public_has w q Hfile. unfold serve_get, dispatch.
    rewrite Hfile. destruct v; reflexivity.
Qed.

(** ** Pagination *)

Lemma parseInt_cases v : parseInt v = NaN \/ exists z, parseInt v = Fin z.
Proof.
  unfold parseInt, parseInt_string.
  destruct (split_sign _) as [neg s1].
  match goal with |- context [let '(_, _) := ?e in _] => destruct e as [radix s2] end.
  destruct (scan_int radix s2 None); eauto.
Qed.

(** Variant A: whatever [page] and [limit] hold, the page number is an
    integer from 1 on, the page size an integer from 1 to 100, and the
    offset their product; and the fallbacks are 1 and 20. *)
Lemma pagination_clamped_variantA q :
  exists p l,
    pageNum VariantA q = Fin p /\ limitNum VariantA q = Fin l
    /\ 1 <= p /\ 1 <= l <= 100
    /\ offset VariantA q = Fin ((p - 1) * l)
    /\ (parseInt (or_default (page q) (VNum (Fin 1))) = NaN -> p = 1)
    /\ (parseInt (or_default (limit q) (VNum (Fin 20))) = NaN -> l = 20).
Proof.
  unfold offset, pageNum, limitNum.
  destruct (parseInt_cases (or_default (page q) (VNum (Fin 1)))) as [-> | [p ->]];
    destruct (parseInt_cases (or_default (limit q) (VNum (Fin 20)))) as [-> | [l ->]];
    unfold num_or, truthy; cbn [Math_max Math_min num_sub num_mul negb];
    repeat match goal with
           | |- context [if negb (?z =? 0) then _ else _] =>
               destruct (Z.eqb_spec z 0); cbn [negb Math_max Math_min num_sub num_mul]
           end;
    eexists; eexists;
    (split; [reflexivity|]); (split; [reflexivity|]);
    (split; [lia|]); (split; [lia|]);
    (split; [reflexivity|]); split; intros; try discriminate; lia.
Qed.

Lemma pagination_defaults_variantA :
  pageNum VariantA bare_request = Fin 1
  /\ limitNum VariantA bare_request = Fin 20
  /\ offset VariantA bare_request = Fin 0.
Proof. repeat split. Qed.

(** Variant B agrees with variant A on every value that [parseInt] reads
    as an integer other than zero: what it lacks is the fallback. *)
Lemma pagination_variantB_parsed q p l :
  parseInt (or_default (page q) (VNum (Fin 1))) = Fin p ->
  parseInt (or_default (limit q) (VNum (Fin 20))) = Fin l ->
  pageNum VariantB q = Fin (Z.max 1 p)
  /\ limitNum VariantB q = Fin (Z.min 100 (Z.max 1 l))
  /\ offset VariantB q = Fin ((Z.max 1 p - 1) * Z.min 100 (Z.max 1 l)).
Proof.
  intros Hp Hl. unfold offset, pageNum, limitNum. rewrite Hp, Hl.
  repeat split.
Qed.

(** C2 (the code departs from the claim in variant B).  Variant B has no
    fallback for a value that [parseInt] cannot read: with page=abc the
    page number and the offset are NaN, with limit=abc the page size and
    the offset are NaN, and the NaN is bound to the fetch statement as
    its OFFSET parameter.  Variant A, on the same requests, uses page 1
    and page size 20; and on every request that it reads to the letter
    and whose page number is 2^46 at most, its page number is at least
    1, its page size lies between 1 and 100, and its offset is
    (page - 1) * size. *)
Theorem pagination_nan_variantB :
  pageNum VariantB page_abc = NaN
  /\ offset VariantB page_abc = NaN
  /\ limitNum VariantB limit_abc = NaN
  /\ offset VariantB limit_abc = NaN
  /\ args (fetch_stmt VariantB page_abc "ASC")
     = [PVal (VNum (Fin 20)); PVal (VNum NaN)]
  /\ fst (list_games VariantB empty_backend page_abc)
     = [count_stmt VariantB page_abc; fetch_stmt VariantB page_abc "ASC"]
  /\ pageNum VariantA page_abc = Fin 1
  /\ limitNum VariantA limit_abc = Fin 20
  /\ (forall q p,
         plain_query VariantA q = true ->
         pageNum VariantA q = Fin p ->
         p <= exact_pages ->
         exists l,
           limitNum VariantA q = Fin l
           /\ 1 <= p /\ 1 <= l <= 100
           /\ offset VariantA q = Fin ((p - 1) * l)).
Proof.
  do 8 (split; [reflexivity|]).
  intros q p _ Hq _. destruct (pagination_clamped_variantA q)
    as [p' [l [Hp [Hl [Hp1 [Hl1 [Ho _]]]]]]].
  rewrite Hp in Hq. injection Hq as ->.
  exists l. auto.
Qed.

(** ** Game by id *)

Lemma routed_id_nonempty v public_has id :
  dispatch v public_has GET ["api"; "games"; id] = Handler GameById [("id", id)] ->
  id <> "".
Proof.
  intros H ->. unfold dispatch in H.
  destruct (reads GET && public_has _); [discriminate|].
  destruct v; cbn in H; discriminate.
Qed.

Lemma truthy_string s : s <> "" -> truthy (VStr s) = true.
Proof.
  intros H. unfold truthy. destruct (String.eqb_spec s ""); [contradiction|reflexivity].
Qed.

(** The handler on an id the route can bind: what it sends and answers. *)
Lemma game_by_id_run w id :
  id <> "" ->
  game_by_id w id =
  if isNaN id then ([], failure 400 "Invalid game ID")
  else
    let s := Stmt game_by_id_sql [PVal (VStr id)] in
    match run_select w s with
    | None => ([s], failure 500 "Error fetching game")
    | Some [] => ([s], failure 404 "Game not found")
    | Some (game :: _) =>
        ([s], Response 200 (VObj [("success", VBool true);
                                  ("data", VObj [("game", VObj game)])]))
    end.
Proof.
  intros H. unfold game_by_id. rewrite (truthy_string id H). cbn [negb orb].
  destruct (isNaN id); [reflexivity|].
  unfold select, bind, try_catch. cbn zeta.
  destruct (run_select w _) as [[|game rows]|]; reflexivity.
Qed.

Lemma trim_start_spaces s : every is_space s = true -> trim_start s = "".
Proof.
  induction s as [|c s IH]; cbn [every trim_start]; [reflexivity|].
  intros H. apply andb_prop in H. destruct H as [Hc Hs].
  rewrite Hc. now apply IH.
Qed.

(** A string of spaces coerces to zero. *)
Lemma spaces_coerce_to_zero s :
  every is_space s = true -> StringToNumber s = FDec false 0 0.
Proof.
  intros H. unfold StringToNumber, trim. now rewrite (trim_start_spaces s H).
Qed.

(** C10.  For the id the route binds (never the empty string; here a
    string of ASCII characters), the handler answers 400 Invalid game ID
    exactly when the numeric coercion of the id is NaN, and then sends
    nothing.  Otherwise it sends the lookup statement with the id as its
    parameter, and answers 404 Game not found when no row comes back.
    An id made of spaces only coerces to 0, not to NaN; nor do
    Infinity, 1e3 and 0x10, none of them a decimal integer.  A GET
    request for /api/games/ followed by the id, written without
    percent-escapes, is routed to this handler with that id unless the
    public directory has a file of that path. *)
Theorem game_id_rejected_iff_nan w id
  (Hid : id <> "") (Hascii : ascii_text id = true) :
  (snd (game_by_id w id)
   = Response 400 (VObj [("success", VBool false);
                         ("message", VStr "Invalid game ID")])
   <-> isNaN id = true)
  /\ (isNaN id = true -> fst (game_by_id w id) = [])
  /\ (isNaN id = false ->
      fst (game_by_id w id) = [Stmt game_by_id_sql [PVal (VStr id)]]
      /\ (run_select w (Stmt game_by_id_sql [PVal (VStr id)]) = Some [] ->
          snd (game_by_id w id)
          = Response 404 (VObj [("success", VBool false);
                                ("message", VStr "Game not found")])))
  /\ (every is_space id = true -> isNaN id = false)
  /\ Forall (fun s => isNaN s = false) [" "; "Infinity"; "1e3"; "0x10"]
  /\ StringToNumber " " = FDec false 0 0
  /\ (forall v public_has q,
        verbatim ["api"; "games"; id] = true ->
        public_has ["api"; "games"; id] = false ->
        dispatch v public_has GET ["api"; "games"; id]
        = Handler GameById [("id", id)]
        /\ serve_get v public_has w ["api"; "games"; id] q
           = Some (game_by_id w id)).
Proof.
  rewrite (game_by_id_run w id Hid).
  split; [|split; [|split; [|split; [|split; [|split]]]]].
  - destruct (isNaN id); [split; reflexivity|]. cbn zeta.
    split; [|discriminate].
    destruct (run_select w _) as [[|game rows]|]; discriminate.
  - intros ->. reflexivity.
  - intros ->. cbn zeta.
    destruct (run_select w _) as [[|game rows]|];
      (split; [reflexivity|]); intros; try discriminate; reflexivity.
  - intros H. unfold isNaN. now rewrite (spaces_coerce_to_zero id H).
  - repeat constructor.
  - reflexivity.
  - intros v public_has q _ Hfile.
    assert (Hd : dispatch v public_has GET ["api"; "games"; id]
                 = Handler GameById [("id", id)]).
    { unfold dispatch. rewrite Hfile. cbn [reads andb].
      apply String.eqb_neq in Hid.
      destruct v; cbn; rewrite Hid; reflexivity. }
    split; [exact Hd|]. unfold serve_get. rewrite Hd.
    cbn [path_param find fst snd String.eqb Ascii.eqb Bool.eqb].
    now rewrite (game_by_id_run w id Hid).
Qed.

(** C10, at the id made of one space, on an engine without rows: the
    id is not rejected, the lookup is sent and the answer is 404. *)
Lemma game_id_space_witness :
  isNaN " " = false
  /\ fst (game_by_id empty_backend " ") = [Stmt game_by_id_sql [PVal (VStr " ")]]
  /\ snd (game_by_id empty_backend " ")
     = Response 404 (VObj [("success", VBool false);
                           ("message", VStr "Game not found")]).
Proof.
  pose proof (game_id_rejected_iff_nan empty_backend " "
                ltac:(discriminate) eq_refl) as [_ [_ [H _]]].
  specialize (H eq_refl). destruct H as [Hsent H404].
  split; [reflexivity|]. split; [exact Hsent|].
  apply H404. reflexivity.
Defined.

(** ** Login *)



(** ** Filters *)

Lemma append_empty_r (s : string) : s ++ "" = s.
Proof. induction s as [|c s IH]; simpl; [reflexivity | now rewrite IH]. Qed.

(** C3, as stated, fails on ?minPrice=abc.  The bound does not parse,
    yet both variants keep its predicate and bind NaN for it: the count
    statement and the fetch statement both carry them, where a request
    without the bound has an empty where clause and no parameter.  The
    request is no error to the handler, which answers 200. *)
Lemma unparseable_min_price_kept :
  parseFloat (minPrice min_price_abc) = FNaN
  /\ build_filters VariantA min_price_abc = Filters ["price_usd >= ?"] [PFloat FNaN]
  /\ build_filters VariantB min_price_abc = Filters ["price_usd >= ?"] [PFloat FNaN]
  /\ build_filters VariantA bare_request = Filters [] []
  /\ count_stmt VariantA min_price_abc <> count_stmt VariantA bare_request
  /\ fetch_stmt VariantA min_price_abc "ASC" <> fetch_stmt VariantA bare_request "ASC"
  /\ fst (list_games VariantA empty_backend min_price_abc)
     = [ Stmt "SELECT COUNT(*) as total FROM steam_games WHERE price_usd >= ?"
              [PFloat FNaN];
         Stmt "SELECT id, name, steam_appid, price_usd, hours_to_beat, cost_per_hour, created_at, updated_at FROM steam_games WHERE price_usd >= ? ORDER BY name ASC LIMIT 20 OFFSET 0"
              [PFloat FNaN] ]
  /\ status (snd (list_games VariantA empty_backend min_price_abc)) = 200.
Proof. repeat split; discriminate. Qed.

(** C3, amended.  On a request that the handler reads to the letter, a
    bound contributes its predicate exactly when it is given (in
    variant A: neither undefined nor the empty string; in variant B:
    truthy), whether or not it parses.  A given bound contributes, at
    the place of its predicate, the number parseFloat reads from it,
    which is NaN when it does not parse; and every statement the request
    sends, the count statement and the fetch statement alike, binds that
    number and holds the where clause with that predicate.  The request
    is not an error, whatever its bounds hold: when the order is read
    and the engine accepts the two statements, both are sent and the
    answer is 200. *)
Theorem given_bound_is_bound v q b (Hplain : plain_query v q = true) :
  (In (bound_predicate b) (whereConditions (build_filters v q))
   <-> is_given v (bound_value b q) = true)
  /\ (is_given v (bound_value b q) = true ->
      In (bound_predicate b, PFloat (parseFloat (bound_value b q)))
         (combine (whereConditions (build_filters v q))
                  (baseParams (build_filters v q)))
      /\ (parseFloat (bound_value b q) = FNaN ->
          In (PFloat FNaN) (baseParams (build_filters v q)))
      /\ (forall w s, In s (fst (list_games v w q)) ->
            In (PFloat (parseFloat (bound_value b q))) (args s)
            /\ exists before after,
                sql s = before ++ whereClause (build_filters v q) ++ after))
  /\ (forall w d total games,
        sortOrder q = Returned d ->
        run_count w (count_stmt v q) = Some total ->
        run_select w (fetch_stmt v q d) = Some games ->
        fst (list_games v w q) = [count_stmt v q; fetch_stmt v q d]
        /\ status (snd (list_games v w q)) = 200).
Proof.
  apply andb_prop in Hplain. destruct Hplain as [Hcoerces _].
  assert (Hpair : is_given v (bound_value b q) = true ->
                  In (bound_predicate b, PFloat (parseFloat (bound_value b q)))
                     (combine (whereConditions (build_filters v q))
                        (baseParams (build_filters v q)))).
  { rewrite build_filters_pick. cbn [whereConditions baseParams].
    unfold filter_mask, filter_values, fixed_predicates.
    destruct b; cbn [bound_value bound_predicate]; intros ->;
      destruct (truthy (search q)); repeat destruct (is_given v _);
      simpl; auto 10. }
  split; [|split;
           [intros Hgiven; specialize (Hpair Hgiven);
            pose proof (in_combine_r _ _ _ _ Hpair) as Hparam;
            split; [exact Hpair|split]|]].
  - rewrite build_filters_pick. cbn [whereConditions].
    unfold filter_mask, fixed_predicates.
    destruct b; cbn [bound_value bound_predicate];
      destruct (truthy (search q)), (is_given v (minPrice q)),
        (is_given v (maxPrice q)), (is_given v (minHours q)),
        (is_given v (maxHours q)); simpl; split; intros H; auto 10;
      try discriminate;
      repeat (destruct H as [H | H]; try discriminate H); contradiction.
  - intros <-. exact Hparam.
  - intros w s Hs. apply list_games_sent in Hs.
    destruct Hs as [-> | [d [_ ->]]].
    + split; [exact Hparam|].
      exists "SELECT COUNT(*) as total FROM steam_games ", "".
      cbn [sql count_stmt]. unfold countQuery.
      now rewrite append_empty_r.
    + split.
      * cbn [args fetch_stmt]. unfold gamesParams. apply in_or_app. now left.
      * eexists. eexists. reflexivity.
  - intros w d total games Hd Hcount Hselect.
    rewrite list_games_run, Hcoerces, Hd, Hcount, Hselect. split; reflexivity.
Qed.

(** C3 amended, at ?minPrice=abc in variant A: the bound is given, does
    not parse, and NaN is bound for it. *)
Lemma given_bound_witness :
  plain_query VariantA min_price_abc = true
  /\ is_given VariantA (bound_value MinPrice min_price_abc) = true
  /\ In (bound_predicate MinPrice, PFloat FNaN)
        (combine (whereConditions (build_filters VariantA min_price_abc))
                 (baseParams (build_filters VariantA min_price_abc)))
  /\ In (PFloat FNaN) (baseParams (build_filters VariantA min_price_abc)).
Proof.
  destruct (given_bound_is_bound VariantA min_price_abc MinPrice eq_refl)
    as [_ [H _]].
  destruct (H eq_refl) as [Hpair [Hnan _]].
  split; [reflexivity|]. split; [reflexivity|].
  split; [exact Hpair | exact (Hnan eq_refl)].
Defined.

(** ** The two queries *)

(** Returned directions come from an order that is absent or a
    string. *)
Lemma sortOrder_returns q :
  (exists d, sortOrder q = Returned d)
  <-> order q = VUndef \/ exists s, order q = VStr s.
Proof.
  unfold sortOrder. destruct (order q); cbn [or_default]; split;
    try (intros [d H]; discriminate H);
    try (intros [H | [s H]]; discriminate H);
    eauto.
Qed.


(** Variant B never assembles a fetch query whose parameters and
    placeholders differ in number. *)
Lemma variantB_params_always_match q d :
  sortOrder q = Returned d ->
  List.length (args (fetch_stmt VariantB q d))
  = count_char "?" (sql (fetch_stmt VariantB q d)).
Proof. apply gamesQuery_balanced. Qed.

(** C5.  When the number of bound parameters differs from the number of
    question marks in the fetch query, the handler throws before the
    query is run: nothing is sent and the answer is the 500 of the catch
    block.  Variant A tests this on whatever text and parameters reach
    the test.  Variant B has no test, and needs none: the fetch queries
    it assembles are never unbalanced. *)
Theorem param_count_mismatch_is_fatal v w query params total pageNum limitNum
  (Hassembled : v = VariantB ->
                exists q d, sortOrder q = Returned d
                            /\ Stmt query params = fetch_stmt VariantB q d)
  (Hmismatch : List.length params <> count_char "?" query) :
  try_catch (fetch_page v w query params total pageNum limitNum) games_error
  = ([], failure 500 "Error fetching games").
Proof.
  destruct v.
  - unfold fetch_page, check_params.
    apply Nat.eqb_neq in Hmismatch. rewrite Hmismatch. reflexivity.
  - destruct (Hassembled eq_refl) as [q [d [Hd E]]].
    exfalso. apply Hmismatch.
    pose proof (variantB_params_always_match q d Hd) as H.
    rewrite <- E in H. exact H.
Qed.

(** C5, in variant A, on a text with one question mark and no
    parameter: the select is not sent. *)
Lemma param_count_mismatch_witness :
  List.length (@nil param) <> count_char "?" one_placeholder
  /\ try_catch (fetch_page VariantA empty_backend one_placeholder [] 12 (Fin 1) (Fin 5))
               games_error
     = ([], failure 500 "Error fetching games").
Proof.
  assert (H : List.length (@nil param) <> count_char "?" one_placeholder)
    by discriminate.
  split; [exact H|].
  apply (param_count_mismatch_is_fatal VariantA empty_backend one_placeholder []
           12 (Fin 1) (Fin 5)); [discriminate | exact H].
Defined.

(** ** Sorting *)




Ltac each_char c := destruct c as [[] [] [] [] [] [] [] []].

Lemma upper_is_D c : Ascii.eqb (upper_char c) "D" = Ascii.eqb (lower_char c) "d".
Proof. each_char c; reflexivity. Qed.

Lemma upper_is_E c : Ascii.eqb (upper_char c) "E" = Ascii.eqb (lower_char c) "e".
Proof. each_char c; reflexivity. Qed.

Lemma upper_is_S c : Ascii.eqb (upper_char c) "S" = Ascii.eqb (lower_char c) "s".
Proof. each_char c; reflexivity. Qed.

Lemma upper_is_C c : Ascii.eqb (upper_char c) "C" = Ascii.eqb (lower_char c) "c".
Proof. each_char c; reflexivity. Qed.

Lemma string_eqb_cons a s b t :
  String.eqb (String a s) (String b t) = Ascii.eqb a b && String.eqb s t.
Proof. simpl. destruct (Ascii.eqb a b); reflexivity. Qed.

(** Comparing the upper-cased string with DESC is comparing the strings
    whatever the case of their letters. *)
Lemma upper_is_DESC s :
  String.eqb (toUpperCase s) "DESC" = String.eqb (toLowerCase s) "desc".
Proof.
  unfold toUpperCase, toLowerCase.
  destruct s as [|c1 [|c2 [|c3 [|c4 [|c5 s]]]]];
    cbn [map_string]; rewrite ?string_eqb_cons,
      ?upper_is_D, ?upper_is_E, ?upper_is_S, ?upper_is_C; reflexivity.
Qed.

(** C7, as stated, fails on ?order=descending.  The word descending, in
    lower case as the claim has it, does not select the descending
    direction: the handler compares with DESC, and orders by name ASC. *)
Lemma descending_word_is_ascending :
  toLowerCase "descending" = "descending"
  /\ sortOrder order_descending = Returned "ASC"
  /\ sortOrder order_descending <> Returned "DESC"
  /\ fst (list_games VariantA empty_backend order_descending)
     = [ Stmt "SELECT COUNT(*) as total FROM steam_games " [];
         Stmt "SELECT id, name, steam_appid, price_usd, hours_to_beat, cost_per_hour, created_at, updated_at FROM steam_games  ORDER BY name ASC LIMIT 20 OFFSET 0"
              [] ].
Proof. repeat split; discriminate. Qed.

(** The texts of what a request sends. *)
Lemma list_games_sent_text v w q s :
  In s (fst (list_games v w q)) ->
  sql s = count_text v q
  \/ exists d column,
      sortOrder q = Returned d /\ In column validSortColumns
      /\ sql s = fetch_text v q column d (limitNum v q) (offset v q).
Proof.
  intros Hs. apply list_games_sent in Hs.
  destruct Hs as [-> | [d [Hd ->]]]; [left; apply count_stmt_text|].
  right. destruct (fetch_stmt_text v q d) as [c [_ [Hin [Hsql _]]]].
  exists d, c. auto.
Qed.

(** C7, amended.  The direction written into a fetch statement is ASC
    or DESC and nothing else.  An order that is a string of ASCII
    characters selects DESC exactly when it is desc in any letter case;
    every other such string, and an absent order, give ASC; and the
    fetch statement is written with that direction. *)
Theorem sort_direction_normalized q :
  (forall v w s, In s (fst (list_games v w q)) ->
      sql s = count_text v q
      \/ exists column d limitNum offset,
          (d = "ASC" \/ d = "DESC")
          /\ sql s = fetch_text v q column d limitNum offset)
  /\ (forall word,
        order q = VStr word -> ascii_text word = true ->
        sortOrder q
        = Returned (if String.eqb (toLowerCase word) "desc" then "DESC" else "ASC")
        /\ forall v w s, In s (fst (list_games v w q)) ->
             sql s = count_text v q
             \/ exists column limitNum offset,
                 sql s = fetch_text v q column
                           (if String.eqb (toLowerCase word) "desc"
                            then "DESC" else "ASC")
                           limitNum offset)
  /\ (order q = VUndef ->
      sortOrder q = Returned "ASC"
      /\ forall v w s, In s (fst (list_games v w q)) ->
           sql s = count_text v q
           \/ exists column limitNum offset,
               sql s = fetch_text v q column "ASC" limitNum offset).
Proof.
  assert (Hsent : forall d, sortOrder q = Returned d ->
            forall v w s, In s (fst (list_games v w q)) ->
              sql s = count_text v q
              \/ exists column limitNum offset,
                  sql s = fetch_text v q column d limitNum offset).
  { intros d Hd v w s Hs. apply list_games_sent_text in Hs.
    destruct Hs as [Hs | [d' [c [Hd' [_ Hs]]]]]; [now left|].
    right. rewrite Hd in Hd'. injection Hd' as <-. eauto. }
  split; [|split].
  - intros v w s Hs. apply list_games_sent_text in Hs.
    destruct Hs as [Hs | [d [c [Hd [_ Hs]]]]]; [now left|].
    right. exists c, d, (limitNum v q), (offset v q).
    split; [exact (sortOrder_cases q d Hd) | exact Hs].
  - intros word Hword _.
    assert (Hd : sortOrder q
                 = Returned (if String.eqb (toLowerCase word) "desc"
                             then "DESC" else "ASC")).
    { unfold sortOrder. rewrite Hword. cbn [or_default].
      now rewrite upper_is_DESC. }
    split; [exact Hd | exact (Hsent _ Hd)].
  - intros Hundef.
    assert (Hd : sortOrder q = Returned "ASC").
    { unfold sortOrder. now rewrite Hundef. }
    split; [exact Hd | exact (Hsent _ Hd)].
Qed.


(** ** Pagination metadata *)

Lemma limitNum_range v q l : limitNum v q = Fin l -> 1 <= l <= 100.
Proof.
  unfold limitNum. destruct v.
  - destruct (parseInt_cases (or_default (limit q) (VNum (Fin 20)))) as [-> | [z ->]];
      unfold num_or, truthy; cbn [negb Math_max Math_min].
    + intros [= <-]. lia.
    + destruct (Z.eqb_spec z 0); cbn [negb Math_max Math_min];
        intros [= <-]; lia.
  - destruct (parseInt_cases (or_default (limit q) (VNum (Fin 20)))) as [-> | [z ->]];
      cbn [Math_max Math_min]; [discriminate|].
    intros [= <-]. lia.
Qed.

(** On integers with a positive divisor, [Math_ceil_div] is the least
    [k] with [total <= k * l]. *)
Lemma Math_ceil_div_spec total l :
  0 < l ->
  exists k, Math_ceil_div (Fin total) (Fin l) = Fin k
            /\ (k - 1) * l < total <= k * l.
Proof.
  intros Hl. exists (- ((- total) / l)). split.
  - unfold Math_ceil_div. destruct (Z.eqb_spec l 0); [lia | reflexivity].
  - pose proof (Z.div_mod (- total) l ltac:(lia)) as Hdm.
    pose proof (Z.mod_pos_bound (- total) l Hl) as Hr.
    nia.
Qed.



(** ** The regular expression matcher *)

Lemma append_empty_inv (x y : string) : x ++ y = "" -> x = "" /\ y = "".
Proof. destruct x; simpl; [auto | discriminate]. Qed.

Lemma accepts_seq_inv r s t :
  Regex.accepts (Regex.Seq r s) t ->
  exists x y, t = x ++ y /\ Regex.accepts r x /\ Regex.accepts s y.
Proof. intros H. inversion H; subst. eauto. Qed.

Lemma nullable_accepts r : Regex.nullable r = true <-> Regex.accepts r "".
Proof.
  induction r; simpl; split; intros H; try discriminate;
    try (now constructor).
  - inversion H.
  - inversion H.
  - apply andb_prop in H. destruct H as [H1 H2].
    change "" with ("" ++ ""). constructor; [now apply IHr1 | now apply IHr2].
  - apply accepts_seq_inv in H. destruct H as [x [y [E [Hx Hy]]]].
    symmetry in E. apply append_empty_inv in E. destruct E; subst.
    apply andb_true_intro. split; [now apply IHr1 | now apply IHr2].
  - apply orb_prop in H. destruct H; [apply Regex.AcceptsAltL; now apply IHr1
                                     | apply Regex.AcceptsAltR; now apply IHr2].
  - apply orb_true_intro. inversion H; subst;
      [left; now apply IHr1 | right; now apply IHr2].
Qed.

(** A non-empty string of [Star r] starts with a non-empty string of [r]. *)
Lemma accepts_star_cons r c s :
  Regex.accepts (Regex.Star r) (String c s) ->
  exists x y, s = x ++ y /\ Regex.accepts r (String c x)
              /\ Regex.accepts (Regex.Star r) y.
Proof.
  intros H. remember (Regex.Star r) as r' eqn:Er.
  remember (String c s) as t eqn:Et.
  induction H as [| | | | | |r0 x y Hx _ Hy IH]; try discriminate.
  injection Er as ->.
  destruct x as [|d x].
  - simpl in Et. now apply IH.
  - simpl in Et. injection Et as -> <-. now exists x, y.
Qed.

Lemma deriv_accepts r : forall c s,
  Regex.accepts (Regex.deriv c r) s <-> Regex.accepts r (String c s).
Proof.
  induction r as [| |p|r1 IH1 r2 IH2|r1 IH1 r2 IH2|r IH]; intros c s; simpl.
  - split; intros H; inversion H.
  - split; intros H; inversion H.
  - destruct (p c) eqn:Hp; split; intros H; inversion H; subst.
    + now constructor.
    + constructor.
    + congruence.
  - assert (Hseq : Regex.accepts (Regex.Seq (Regex.deriv c r1) r2) s
                   -> Regex.accepts (Regex.Seq r1 r2) (String c s)).
    { intros H. apply accepts_seq_inv in H.
      destruct H as [x [y [-> [Hx Hy]]]].
      change (String c (x ++ y)) with (String c x ++ y).
      constructor; [now apply IH1 | assumption]. }
    assert (Hinv : Regex.accepts (Regex.Seq r1 r2) (String c s) ->
                   (exists x y, s = x ++ y /\ Regex.accepts r1 (String c x)
                                /\ Regex.accepts r2 y)
                   \/ (Regex.accepts r1 "" /\ Regex.accepts r2 (String c s))).
    { intros H. apply accepts_seq_inv in H.
      destruct H as [x [y [E [Hx Hy]]]].
      destruct x as [|d x]; simpl in E.
      - right. subst y. auto.
      - injection E as <- ->. left. now exists x, y. }
    destruct (Regex.nullable r1) eqn:Hn; split; intros H.
    + inversion H; subst; [now apply Hseq|].
      change (String c s) with ("" ++ String c s).
      constructor; [now apply nullable_accepts | now apply IH2].
    + destruct (Hinv H) as [[x [y [-> [Hx Hy]]]] | [_ Hy]].
      * apply Regex.AcceptsAltL. constructor; [now apply IH1 | assumption].
      * apply Regex.AcceptsAltR. now apply IH2.
    + now apply Hseq.
    + destruct (Hinv H) as [[x [y [-> [Hx Hy]]]] | [He _]].
      * constructor; [now apply IH1 | assumption].
      * apply nullable_accepts in He. congruence.
  - split; intros H; inversion H; subst;
      solve [ apply Regex.AcceptsAltL; now apply IH1
            | apply Regex.AcceptsAltR; now apply IH2 ].
  - split; intros H.
    + apply accepts_seq_inv in H. destruct H as [x [y [-> [Hx Hy]]]].
      change (String c (x ++ y)) with (String c x ++ y).
      constructor; [now apply IH | assumption].
    + apply accepts_star_cons in H. destruct H as [x [y [-> [Hx Hy]]]].
      constructor; [now apply IH | assumption].
Qed.

(** The matcher decides the language. *)
Lemma test_accepts s : forall r, Regex.test r s = true <-> Regex.accepts r s.
Proof.
  induction s as [|c s IH]; intros r; simpl.
  - apply nullable_accepts.
  - rewrite IH. apply deriv_accepts.
Qed.

Lemma every_append p (x y : string) :
  every p (x ++ y) = every p x && every p y.
Proof.
  induction x as [|c x IH]; simpl; [reflexivity|].
  now rewrite IH, andb_assoc.
Qed.

Lemma accepts_class_inv p s :
  Regex.accepts (Regex.Class p) s -> exists c, s = String c "" /\ p c = true.
Proof. intros H. inversion H; subst. eauto. Qed.

Lemma accepts_star_class p s :
  Regex.accepts (Regex.Star (Regex.Class p)) s <-> every p s = true.
Proof.
  split.
  - intros H. remember (Regex.Star (Regex.Class p)) as r eqn:Er.
    induction H as [| | | | | |r0 x y Hx _ Hy IH]; try discriminate;
      [reflexivity|].
    injection Er as ->. apply accepts_class_inv in Hx.
    destruct Hx as [c [-> Hc]]. simpl. now rewrite Hc, IH.
  - induction s as [|c s IH]; simpl; intros H; [constructor|].
    apply andb_prop in H. destruct H as [Hc Hs].
    change (String c s) with (String c "" ++ s).
    constructor; [now constructor | now apply IH].
Qed.

(** [[...]+] takes the non-empty strings made of the class. *)
Lemma accepts_plus_class p s :
  Regex.accepts (Regex.Plus (Regex.Class p)) s <-> s <> "" /\ every p s = true.
Proof.
  unfold Regex.Plus. split.
  - intros H. apply accepts_seq_inv in H. destruct H as [x [y [-> [Hx Hy]]]].
    apply accepts_class_inv in Hx. destruct Hx as [c [-> Hc]].
    apply accepts_star_class in Hy. simpl. rewrite Hc, Hy. split; [discriminate|reflexivity].
  - intros [Hne H]. destruct s as [|c s]; [contradiction|].
    simpl in H. apply andb_prop in H. destruct H as [Hc Hs].
    change (String c s) with (String c "" ++ s).
    constructor; [now constructor | now apply accepts_star_class].
Qed.

Lemma accepts_char x s :
  Regex.accepts (Regex.Class (Accounts.is_char x)) s <-> s = String x "".
Proof.
  split.
  - intros H. apply accepts_class_inv in H. destruct H as [c [-> Hc]].
    unfold Accounts.is_char in Hc. apply Ascii.eqb_eq in Hc. now subst.
  - intros ->. constructor. unfold Accounts.is_char. apply Ascii.eqb_refl.
Qed.

Lemma username_pattern_spec s :
  Regex.test Accounts.usernameRegex s = true
  <-> s <> "" /\ every Accounts.word_char s = true.
Proof. rewrite test_accepts. apply accepts_plus_class. Qed.

Lemma plain_count_at s :
  every Accounts.plain_char s = true -> count_char "@" s = 0%nat.
Proof.
  induction s as [|c s IH]; cbn [every count_char]; [reflexivity|].
  intros H. apply andb_prop in H. destruct H as [Hc Hs].
  rewrite (IH Hs). unfold Accounts.plain_char in Hc.
  apply negb_true_iff, orb_false_elim in Hc. destruct Hc as [_ Hc].
  rewrite Ascii.eqb_sym in Hc. now rewrite Hc.
Qed.

Lemma plain_no_space s :
  every Accounts.plain_char s = true -> every (fun c => negb (is_space c)) s = true.
Proof.
  induction s as [|c s IH]; cbn [every]; [reflexivity|].
  intros H. apply andb_prop in H. destruct H as [Hc Hs].
  rewrite (IH Hs), andb_true_r. unfold Accounts.plain_char in Hc.
  apply negb_true_iff, orb_false_elim in Hc. destruct Hc as [Hc _].
  now rewrite Hc.
Qed.

(** The address test takes exactly the strings of the shape
    local@domain.tld. *)
Lemma emailRegex_spec s :
  Regex.test Accounts.emailRegex s = true <-> email_shape s.
Proof.
  rewrite test_accepts. unfold Accounts.emailRegex, email_shape, plain. split.
  - intros H.
    apply accepts_seq_inv in H. destruct H as [a [r1 [-> [Ha H]]]].
    apply accepts_seq_inv in H. destruct H as [at_ [r2 [-> [Hat H]]]].
    apply accepts_seq_inv in H. destruct H as [b [r3 [-> [Hb H]]]].
    apply accepts_seq_inv in H. destruct H as [dot [c [-> [Hdot Hc]]]].
    apply accepts_char in Hat, Hdot. subst at_ dot.
    apply accepts_plus_class in Ha, Hb, Hc.
    exists a, b, c. auto.
  - intros [a [b [c [-> [Ha [Hb Hc]]]]]].
    apply accepts_plus_class in Ha, Hb, Hc.
    repeat (constructor; try assumption);
      unfold Accounts.is_char; apply Ascii.eqb_refl.
Qed.

(** X1.  On a string of ASCII characters, the email test of the signup
    handler accepts exactly the strings local@domain.tld whose three
    parts are non-empty and hold neither a space nor an at sign (the
    parts may hold dots).  An accepted address therefore has exactly one
    at sign and no space. *)
Theorem email_regex_shape s (Hascii : ascii_text s = true) :
  (Regex.test Accounts.emailRegex s = true <-> email_shape s)
  /\ (Regex.test Accounts.emailRegex s = true ->
      count_char "@" s = 1%nat
      /\ every (fun c => negb (is_space c)) s = true).
Proof.
  split; [apply emailRegex_spec|].
  intros H. apply emailRegex_spec in H.
  destruct H as [a [b [c [-> [[_ Ha] [[_ Hb] [_ Hc]]]]]]].
  split.
  - rewrite !count_char_app, (plain_count_at a Ha), (plain_count_at b Hb),
      (plain_count_at c Hc). reflexivity.
  - rewrite !every_append, (plain_no_space a Ha), (plain_no_space b Hb),
      (plain_no_space c Hc). reflexivity.
Qed.

(** X1, at x@y.com. *)
Lemma email_regex_shape_witness :
  email_shape "x@y.com"
  /\ count_char "@" "x@y.com" = 1%nat
  /\ every (fun c => negb (is_space c)) "x@y.com" = true.
Proof.
  destruct (email_regex_shape "x@y.com" eq_refl) as [Hshape Hcount].
  split; [exact (proj1 Hshape eq_refl) | exact (Hcount eq_refl)].
Defined.

Example email_accepted : Regex.test Accounts.emailRegex "x@y.com" = true.
Proof. reflexivity. Qed.

Example email_two_dots_accepted : Regex.test Accounts.emailRegex "a..b@c..d" = true.
Proof. reflexivity. Qed.

Example email_without_tld_rejected : Regex.test Accounts.emailRegex "a@b" = false.
Proof. reflexivity. Qed.

Example email_dot_first_rejected : Regex.test Accounts.emailRegex "a@.com" = false.
Proof. reflexivity. Qed.

Example email_two_ats_rejected : Regex.test Accounts.emailRegex "a@b@c.d" = false.
Proof. reflexivity. Qed.

(** ** Signup *)

Lemma prefix_spec n h : String.prefix n h = true <-> exists b, h = n ++ b.
Proof.
  revert h. induction n as [|c n IH]; intros h.
  - split; [intros _; now exists h | intros _; now destruct h].
  - destruct h as [|d h]; simpl;
      [split; [discriminate | intros [b H]; discriminate]|].
    destruct (ascii_dec c d) as [-> | Hcd].
    + rewrite IH. split; intros [b H]; exists b; [now rewrite H | now injection H].
    + split; [discriminate | intros [b H]; injection H as E _; congruence].
Qed.

(** [includes_text] is the search for a substring. *)
Lemma includes_text_spec n h :
  Accounts.includes_text n h = true <-> exists a b, h = a ++ n ++ b.
Proof.
  induction h as [|c h IH]; cbn [Accounts.includes_text].
  - rewrite prefix_spec. split.
    + intros [b H]. now exists "", b.
    + intros [a [b H]]. destruct a; [now exists b | discriminate].
  - rewrite orb_true_iff, prefix_spec, IH. split.
    + intros [[b H] | [a [b H]]]; [now exists "", b|].
      exists (String c a), b. simpl. now rewrite H.
    + intros [a [b H]]. destruct a as [|d a]; [left; now exists b|].
      right. injection H as _ H. now exists a, b.
Qed.

Lemma signup_error_status e :
  status (Accounts.signup_error e) = 409 \/ status (Accounts.signup_error e) = 500.
Proof.
  unfold Accounts.signup_error.
  destruct (match Accounts.code e with Some c => String.eqb c "ER_DUP_ENTRY" | None => false end);
    [|now right].
  destruct (Accounts.includes_text "username" _); [now left|].
  destruct (Accounts.includes_text "email" _); [now left | now right].
Qed.

(** What the signup handler sends and answers, case by case. *)
Lemma signup_run w username email password :
  Accounts.signup w username email password =
  let u := Accounts.text username in
  let e := Accounts.text email in
  let p := Accounts.text password in
  if Accounts.missing username || Accounts.missing email || Accounts.missing password then
    ([], failure 400 "Username, email, and password are required")
  else if (Accounts.len u <? 3) || (20 <? Accounts.len u) then
    ([], failure 400 "Username must be between 3 and 20 characters")
  else if negb (Regex.test Accounts.usernameRegex u) then
    ([], failure 400 "Username can only contain letters, numbers, and underscores")
  else if negb (Regex.test Accounts.emailRegex e) then
    ([], failure 400 "Please enter a valid email address")
  else if Accounts.len p <? 6 then
    ([], failure 400 "Password must be at least 6 characters long")
  else
    match Accounts.find_rows w (find_username_stmt u) with
    | Accounts.Failed err => ([find_username_stmt u], Accounts.signup_error err)
    | Accounts.Done (_ :: _) =>
        ([find_username_stmt u], failure 409 "Username already exists")
    | Accounts.Done [] =>
        match Accounts.find_rows w (find_email_stmt e) with
        | Accounts.Failed err =>
            ([find_username_stmt u; find_email_stmt e], Accounts.signup_error err)
        | Accounts.Done (_ :: _) =>
            ([find_username_stmt u; find_email_stmt e],
             failure 409 "Email already registered")
        | Accounts.Done [] =>
            match Accounts.bcrypt_hash w p 12 with
            | Accounts.Failed err =>
                ([find_username_stmt u; find_email_stmt e],
                 Accounts.signup_error err)
            | Accounts.Done h =>
                match Accounts.insert_row w (insert_user_stmt u e h) with
                | Accounts.Failed err =>
                    ([find_username_stmt u; find_email_stmt e;
                      insert_user_stmt u e h], Accounts.signup_error err)
                | Accounts.Done id =>
                    ([find_username_stmt u; find_email_stmt e;
                      insert_user_stmt u e h],
                     Response 201
                       (VObj [("success", VBool true);
                              ("message", VStr "Account created successfully");
                              ("user",
                               VObj [("id", VNum (Fin id));
                                     ("username", VStr u);
                                     ("email", VStr e)])]))
                end
            end
        end
    end.
Proof.
  unfold Accounts.signup, Accounts.signup_body. cbv zeta.
  destruct (_ || _ || _); [reflexivity|].
  destruct (_ || _); [reflexivity|].
  destruct (negb (Regex.test Accounts.usernameRegex _)); [reflexivity|].
  destruct (negb (Regex.test Accounts.emailRegex _)); [reflexivity|].
  destruct (Accounts.len _ <? 6); [reflexivity|].
  unfold Accounts.find, Accounts.insert, Accounts.hash, Accounts.and_then,
    Accounts.catch, find_username_stmt, find_email_stmt, insert_user_stmt.
  destruct (Accounts.find_rows w _) as [[|r rs]|err]; try reflexivity.
  destruct (Accounts.find_rows w _) as [[|r' rs']|err]; try reflexivity.
  destruct (Accounts.bcrypt_hash w _ 12) as [h|err]; try reflexivity.
  destruct (Accounts.insert_row w _) as [id|err]; reflexivity.
Qed.

Lemma missing_false f :
  Accounts.missing f = false <-> exists s, f = Some s /\ s <> "".
Proof.
  unfold Accounts.missing. destruct f as [s|]; simpl.
  - destruct (String.eqb_spec s ""); split; intros H; try discriminate.
    + destruct H as [s' [[= <-] Hs]]. contradiction.
    + eauto.
    + reflexivity.
  - split; [discriminate | intros [s [H _]]; discriminate].
Qed.

(** The five checks of the handler, read as one condition on the body. *)
Lemma signup_checks_spec username email password :
  well_formed_signup username email password <->
  (Accounts.missing username || Accounts.missing email || Accounts.missing password = false
   /\ (Accounts.len (Accounts.text username) <? 3)
      || (20 <? Accounts.len (Accounts.text username)) = false
   /\ Regex.test Accounts.usernameRegex (Accounts.text username) = true
   /\ Regex.test Accounts.emailRegex (Accounts.text email) = true
   /\ (Accounts.len (Accounts.text password) <? 6) = false).
Proof.
  unfold well_formed_signup, Accounts.len. split.
  - intros [u [e [p [-> [-> [-> [Hlen [Hword [Hmail Hpass]]]]]]]]].
    cbn [Accounts.text].
    assert (u <> "") by (intros ->; simpl in Hlen; lia).
    assert (p <> "") by (intros ->; simpl in Hpass; lia).
    assert (e <> "").
    { destruct Hmail as [a [b [c [-> [[Ha _] _]]]]].
      destruct a; [contradiction | discriminate]. }
    repeat split.
    + unfold Accounts.missing. cbn [Accounts.text].
      destruct (String.eqb_spec u ""), (String.eqb_spec e ""),
        (String.eqb_spec p ""); try contradiction; reflexivity.
    + apply orb_false_intro; [apply Z.ltb_ge | apply Z.ltb_ge]; lia.
    + apply username_pattern_spec. auto.
    + now apply emailRegex_spec.
    + apply Z.ltb_ge. lia.
  - intros [Hmiss [Hlen [Hword [Hmail Hpass]]]].
    apply orb_false_elim in Hmiss. destruct Hmiss as [Hmiss Hp].
    apply orb_false_elim in Hmiss. destruct Hmiss as [Hu He].
    apply missing_false in Hu, He, Hp.
    destruct Hu as [u [-> Hu]], He as [e [-> He]], Hp as [p [-> Hp]].
    cbn [Accounts.text] in *.
    apply orb_false_elim in Hlen. destruct Hlen as [H3 H20].
    apply Z.ltb_ge in H3, H20, Hpass.
    apply username_pattern_spec in Hword.
    apply emailRegex_spec in Hmail.
    exists u, e, p. repeat split; auto; try lia. apply Hword.
Qed.

(** X2.  For a body whose three fields are absent or strings of ASCII
    characters, the signup handler answers 400 exactly when the body is
    not well formed (a field missing or empty, a username shorter than 3
    or longer than 20 characters or with a character other than a
    letter, a digit or an underscore, an address not of the shape
    local@domain.tld, a password shorter than 6 characters); and a
    request answered 400 has not reached the database. *)
Theorem signup_rejects_before_database w username email password
  (Hascii : ascii_body username email password = true) :
  (status (snd (Accounts.signup w username email password)) = 400
   <-> ~ well_formed_signup username email password)
  /\ (status (snd (Accounts.signup w username email password)) = 400 ->
      fst (Accounts.signup w username email password) = []).
Proof.
  rewrite signup_checks_spec, signup_run. cbv zeta.
  destruct (_ || _ || _); [split; [split; [intros _ [H _]; discriminate | reflexivity] | reflexivity]|].
  destruct (_ || _); [split; [split; [intros _ [_ [H _]]; discriminate | reflexivity] | reflexivity]|].
  destruct (Regex.test Accounts.usernameRegex _);
    [|split; [split; [intros _ [_ [_ [H _]]]; discriminate | reflexivity] | reflexivity]].
  destruct (Regex.test Accounts.emailRegex _);
    [|split; [split; [intros _ [_ [_ [_ [H _]]]]; discriminate | reflexivity] | reflexivity]].
  destruct (Accounts.len _ <? 6);
    [split; [split; [intros _ [_ [_ [_ [_ H]]]]; discriminate | reflexivity] | reflexivity]|].
  cbn [negb].
  assert (Hno : forall (r : list stmt * response),
             status (snd r) <> 400 ->
             (status (snd r) = 400 <->
              ~ (false = false /\ false = false /\ true = true /\ true = true
                 /\ false = false))
             /\ (status (snd r) = 400 -> fst r = [])).
  { intros r Hr. split; [split|]; intros H; try contradiction.
    exfalso. apply H. repeat split. }
  apply Hno.
  destruct (Accounts.find_rows w _) as [[|r rs]|err]; cbn [snd];
    try (pose proof (signup_error_status err) as [E | E]; rewrite E);
    try discriminate.
  destruct (Accounts.find_rows w _) as [[|r' rs']|err]; cbn [snd];
    try (pose proof (signup_error_status err) as [E | E]; rewrite E);
    try discriminate.
  destruct (Accounts.bcrypt_hash w _ 12) as [h|err]; cbn [snd];
    try (pose proof (signup_error_status err) as [E | E]; rewrite E);
    try discriminate.
  destruct (Accounts.insert_row w _) as [id|err]; cbn [snd];
    try (pose proof (signup_error_status err) as [E | E]; rewrite E);
    discriminate.
Qed.

(** X2, on the body of the specification: the username ab is too
    short. *)
Lemma signup_rejects_witness :
  status (snd (Accounts.signup empty_store (Some "ab") (Some "x@y.com")
                 (Some "secret1"))) = 400
  /\ ~ well_formed_signup (Some "ab") (Some "x@y.com") (Some "secret1")
  /\ fst (Accounts.signup empty_store (Some "ab") (Some "x@y.com")
            (Some "secret1")) = [].
Proof.
  destruct (signup_rejects_before_database empty_store (Some "ab")
              (Some "x@y.com") (Some "secret1") eq_refl) as [Hiff Hsent].
  split; [reflexivity|].
  split; [exact (proj1 Hiff eq_refl) | exact (Hsent eq_refl)].
Defined.

(** X3.  The password never reaches the database.  Every statement of a
    signup is one of the two lookups or the insert, and every parameter
    bound to it is the username, the address, or the string that
    bcrypt.hash returned for the password. *)
Theorem signup_sends_only_the_hash w username email password s :
  In s (fst (Accounts.signup w username email password)) ->
  In (sql s) [Accounts.find_username_sql; Accounts.find_email_sql;
              Accounts.insert_user_sql]
  /\ forall a, In a (args s) ->
       a = PVal (VStr (Accounts.text username))
       \/ a = PVal (VStr (Accounts.text email))
       \/ exists h,
           Accounts.bcrypt_hash w (Accounts.text password) 12 = Accounts.Done h
           /\ a = PVal (VStr h).
Proof.
  rewrite signup_run. cbv zeta.
  repeat match goal with
         | |- context [if ?b then _ else _] => destruct b; [intros []|]
         end.
  assert (Hu : forall a, In a (args (find_username_stmt (Accounts.text username))) ->
                 a = PVal (VStr (Accounts.text username))).
  { intros a [<- | []]. reflexivity. }
  assert (He : forall a, In a (args (find_email_stmt (Accounts.text email))) ->
                 a = PVal (VStr (Accounts.text email))).
  { intros a [<- | []]. reflexivity. }
  destruct (Accounts.find_rows w (find_username_stmt _)) as [[|r rs]|err];
    cbn [fst In]; try (intros [<- | []]; split; [simpl; auto | intros a Ha; left; auto]).
  destruct (Accounts.find_rows w (find_email_stmt _)) as [[|r' rs']|err];
    cbn [fst In];
    try (intros [<- | [<- | []]];
         (split; [simpl; auto | intros a Ha; auto])).
  destruct (Accounts.bcrypt_hash w _ 12) as [h|err] eqn:Hh; cbn [fst In];
    try (intros [<- | [<- | []]];
         (split; [simpl; auto | intros a Ha; auto])).
  assert (Hi : forall a, In a (args (insert_user_stmt (Accounts.text username)
                                       (Accounts.text email) h)) ->
                 a = PVal (VStr (Accounts.text username))
                 \/ a = PVal (VStr (Accounts.text email))
                 \/ exists h', Accounts.Done h = Accounts.Done h'
                               /\ a = PVal (VStr h')).
  { intros a [<- | [<- | [<- | []]]]; eauto. }
  destruct (Accounts.insert_row w _) as [id|err]; cbn [fst In];
    intros [<- | [<- | [<- | []]]];
    (split; [simpl; auto | intros a Ha; auto]).
Qed.

(** X3, on the empty store: the insert binds the hash, not the
    password. *)
Lemma signup_sends_only_the_hash_witness :
  In (insert_user_stmt "alice_1" "a@b.co" "$2b$12$secret1")
     (fst (Accounts.signup empty_store (Some "alice_1") (Some "a@b.co")
             (Some "secret1")))
  /\ In (sql (insert_user_stmt "alice_1" "a@b.co" "$2b$12$secret1"))
        [Accounts.find_username_sql; Accounts.find_email_sql;
         Accounts.insert_user_sql].
Proof.
  assert (H : In (insert_user_stmt "alice_1" "a@b.co" "$2b$12$secret1")
                (fst (Accounts.signup empty_store (Some "alice_1") (Some "a@b.co")
                        (Some "secret1")))).
  { simpl. auto. }
  split; [exact H|].
  exact (proj1 (signup_sends_only_the_hash empty_store (Some "alice_1")
                  (Some "a@b.co") (Some "secret1") _ H)).
Defined.

(** The handler past its five checks. *)
Lemma signup_run_well_formed w username email password :
  well_formed_signup username email password ->
  Accounts.signup w username email password =
  let u := Accounts.text username in
  let e := Accounts.text email in
  let p := Accounts.text password in
  match Accounts.find_rows w (find_username_stmt u) with
  | Accounts.Failed err => ([find_username_stmt u], Accounts.signup_error err)
  | Accounts.Done (_ :: _) =>
      ([find_username_stmt u], failure 409 "Username already exists")
  | Accounts.Done [] =>
      match Accounts.find_rows w (find_email_stmt e) with
      | Accounts.Failed err =>
          ([find_username_stmt u; find_email_stmt e], Accounts.signup_error err)
      | Accounts.Done (_ :: _) =>
          ([find_username_stmt u; find_email_stmt e],
           failure 409 "Email already registered")
      | Accounts.Done [] =>
          match Accounts.bcrypt_hash w p 12 with
          | Accounts.Failed err =>
              ([find_username_stmt u; find_email_stmt e],
               Accounts.signup_error err)
          | Accounts.Done h =>
              match Accounts.insert_row w (insert_user_stmt u e h) with
              | Accounts.Failed err =>
                  ([find_username_stmt u; find_email_stmt e;
                    insert_user_stmt u e h], Accounts.signup_error err)
              | Accounts.Done id =>
                  ([find_username_stmt u; find_email_stmt e;
                    insert_user_stmt u e h],
                   Response 201 (created_body id u e))
              end
          end
      end
  end.
Proof.
  intros H. apply signup_checks_spec in H.
  destruct H as [H1 [H2 [H3 [H4 H5]]]].
  rewrite signup_run. cbv zeta. now rewrite H1, H2, H3, H4, H5.
Qed.

Lemma signup_run_ill_formed w username email password :
  ~ well_formed_signup username email password ->
  fst (Accounts.signup w username email password) = []
  /\ status (snd (Accounts.signup w username email password)) = 400.
Proof.
  intros H. rewrite signup_checks_spec in H. rewrite signup_run. cbv zeta.
  destruct (_ || _ || _); [now split|].
  destruct (_ || _); [now split|].
  destruct (Regex.test Accounts.usernameRegex _); [|now split].
  destruct (Regex.test Accounts.emailRegex _); [|now split].
  destruct (Accounts.len _ <? 6); [now split|].
  exfalso. apply H. repeat split.
Qed.

Lemma well_formed_signup_dec username email password :
  well_formed_signup username email password
  \/ ~ well_formed_signup username email password.
Proof.
  rewrite signup_checks_spec.
  destruct (_ || _ || _); [right; intros [H _]; discriminate|].
  destruct (_ || _); [right; intros [_ [H _]]; discriminate|].
  destruct (Regex.test Accounts.usernameRegex _);
    [|right; intros [_ [_ [H _]]]; discriminate].
  destruct (Regex.test Accounts.emailRegex _);
    [|right; intros [_ [_ [_ [H _]]]]; discriminate].
  destruct (Accounts.len _ <? 6);
    [right; intros [_ [_ [_ [_ H]]]]; discriminate|].
  left. repeat split.
Qed.

(** X4.  For a body whose three fields are absent or strings of ASCII
    characters: a row is inserted only for a well-formed body, after
    both lookups came back empty, and with the hash in the place of the
    password.  The answer is 201 exactly when that insert succeeded; it
    then carries the id the insert gave, and the three statements are
    all that was sent. *)
Theorem signup_inserts_after_checks w username email password
  (Hascii : ascii_body username email password = true) :
  (forall s,
      In s (fst (Accounts.signup w username email password)) ->
      sql s = Accounts.insert_user_sql ->
      well_formed_signup username email password
      /\ Accounts.find_rows w (find_username_stmt (Accounts.text username))
         = Accounts.Done []
      /\ Accounts.find_rows w (find_email_stmt (Accounts.text email))
         = Accounts.Done []
      /\ exists h,
          Accounts.bcrypt_hash w (Accounts.text password) 12 = Accounts.Done h
          /\ s = insert_user_stmt (Accounts.text username) (Accounts.text email) h)
  /\ (status (snd (Accounts.signup w username email password)) = 201 <->
      exists h id,
        In (insert_user_stmt (Accounts.text username) (Accounts.text email) h)
           (fst (Accounts.signup w username email password))
        /\ Accounts.insert_row w
             (insert_user_stmt (Accounts.text username) (Accounts.text email) h)
           = Accounts.Done id)
  /\ (forall h id,
        In (insert_user_stmt (Accounts.text username) (Accounts.text email) h)
           (fst (Accounts.signup w username email password)) ->
        Accounts.insert_row w
          (insert_user_stmt (Accounts.text username) (Accounts.text email) h)
        = Accounts.Done id ->
        Accounts.signup w username email password
        = ([find_username_stmt (Accounts.text username);
            find_email_stmt (Accounts.text email);
            insert_user_stmt (Accounts.text username) (Accounts.text email) h],
           Response 201
             (VObj [("success", VBool true);
                    ("message", VStr "Account created successfully");
                    ("user",
                     VObj [("id", VNum (Fin id));
                           ("username", VStr (Accounts.text username));
                           ("email", VStr (Accounts.text email))])]))).
Proof.
  destruct (well_formed_signup_dec username email password) as [Hwf | Hill].
  2:{ destruct (signup_run_ill_formed w _ _ _ Hill) as [Hsent Hstatus].
      rewrite Hsent, Hstatus. split; [intros s []|].
      split; [split; [discriminate | intros [h [id [[] _]]]] | intros h id []]. }
  rewrite (signup_run_well_formed w _ _ _ Hwf). cbv zeta.
  set (u := Accounts.text username). set (e := Accounts.text email).
  set (p := Accounts.text password).
  assert (Hfu : sql (find_username_stmt u) <> Accounts.insert_user_sql)
    by discriminate.
  assert (Hfe : sql (find_email_stmt e) <> Accounts.insert_user_sql)
    by discriminate.
  assert (Hnu : forall h, find_username_stmt u <> insert_user_stmt u e h)
    by discriminate.
  assert (Hne : forall h, find_email_stmt e <> insert_user_stmt u e h)
    by discriminate.
  assert (Hinj : forall h h', insert_user_stmt u e h = insert_user_stmt u e h' -> h = h').
  { intros h h' [= ->]. reflexivity. }
  destruct (Accounts.find_rows w (find_username_stmt u)) as [[|r rs]|err];
    cbn [fst snd In].
  2-3: split; [intros s [<- | []] Hs; contradiction|];
       split;
       [split;
        [first [discriminate
               | intros H; exfalso;
                 destruct (signup_error_status err) as [E | E];
                 rewrite E in H; discriminate]
        | intros [h [id [[H | []] _]]]; exfalso; exact (Hnu h H)]
       | intros h id [H | []]; exfalso; exact (Hnu h H)].
  destruct (Accounts.find_rows w (find_email_stmt e)) as [[|r' rs']|err];
    cbn [fst snd In].
  2-3: split; [intros s [<- | [<- | []]] Hs; contradiction|];
       split;
       [split;
        [first [discriminate
               | intros H; exfalso;
                 destruct (signup_error_status err) as [E | E];
                 rewrite E in H; discriminate]
        | intros [h [id [[H | [H | []]] _]]]; exfalso;
          [exact (Hnu h H) | exact (Hne h H)]]
       | intros h id [H | [H | []]]; exfalso;
         [exact (Hnu h H) | exact (Hne h H)]].
  destruct (Accounts.bcrypt_hash w p 12) as [h|err]; cbn [fst snd In].
  2: split; [intros s [<- | [<- | []]] Hs; contradiction|];
       split;
       [split;
        [intros H; exfalso;
         destruct (signup_error_status err) as [E | E];
         rewrite E in H; discriminate
        | intros [h [id [[H | [H | []]] _]]]; exfalso;
          [exact (Hnu h H) | exact (Hne h H)]]
       | intros h id [H | [H | []]]; exfalso;
         [exact (Hnu h H) | exact (Hne h H)]].
  destruct (Accounts.insert_row w (insert_user_stmt u e h)) as [id|err] eqn:Hins;
    cbn [fst snd In].
  - split; [intros s [<- | [<- | [<- | []]]] Hs; try contradiction; eauto 10|].
    split.
    + split; [intros _; exists h, id; auto | reflexivity].
    + intros h' id' [H | [H | [H | []]]] Hins';
        [exfalso; exact (Hnu h' H) | exfalso; exact (Hne h' H)|].
      apply Hinj in H. subst h'. rewrite Hins in Hins'. now injection Hins' as ->.
  - split; [intros s [<- | [<- | [<- | []]]] Hs; try contradiction; eauto 10|].
    split.
    + split.
      * intros H; exfalso.
        destruct (signup_error_status err) as [E | E]; rewrite E in H; discriminate.
      * intros [h' [id [[H | [H | [H | []]]] Hins']]];
          [exfalso; exact (Hnu h' H) | exfalso; exact (Hne h' H)|].
        apply Hinj in H. subst h'. rewrite Hins in Hins'. discriminate.
    + intros h' id' [H | [H | [H | []]]] Hins';
        [exfalso; exact (Hnu h' H) | exfalso; exact (Hne h' H)|].
      apply Hinj in H. subst h'. rewrite Hins in Hins'. discriminate.
Qed.

(** X4, on the empty store: alice_1 is inserted with her hash and
    answered 201 with the id 7 of the insert. *)
Lemma signup_inserts_witness :
  Accounts.signup empty_store (Some "alice_1") (Some "a@b.co") (Some "secret1")
  = ([find_username_stmt "alice_1"; find_email_stmt "a@b.co";
      insert_user_stmt "alice_1" "a@b.co" "$2b$12$secret1"],
     Response 201
       (VObj [("success", VBool true);
              ("message", VStr "Account created successfully");
              ("user",
               VObj [("id", VNum (Fin 7)); ("username", VStr "alice_1");
                     ("email", VStr "a@b.co")])])).
Proof.
  destruct (signup_inserts_after_checks empty_store (Some "alice_1")
              (Some "a@b.co") (Some "secret1") eq_refl) as [_ [_ H]].
  apply (H "$2b$12$secret1" 7); [simpl; auto | reflexivity].
Defined.

(** X5.  For a well-formed body of ASCII strings that passed both
    lookups: when the insert is refused with ER_DUP_ENTRY, the answer
    goes by the words of the error message, and the word username is
    looked for first.  A message that holds it is answered 409 with the
    message Username already exists, also when the key it names is the
    email key; a message that holds email but not username is answered
    409 with the message Email already registered; a message with
    neither is answered 500.  An insert refused with any other code is
    answered 500 with the message Internal server error, whatever its
    own message. *)
Theorem signup_duplicate_key_answers w username email password h err
  (Hascii : ascii_body username email password = true)
  (Hwf : well_formed_signup username email password)
  (Hu : Accounts.find_rows w (find_username_stmt (Accounts.text username))
        = Accounts.Done [])
  (He : Accounts.find_rows w (find_email_stmt (Accounts.text email))
        = Accounts.Done [])
  (Hh : Accounts.bcrypt_hash w (Accounts.text password) 12 = Accounts.Done h)
  (Hi : Accounts.insert_row w
          (insert_user_stmt (Accounts.text username) (Accounts.text email) h)
        = Accounts.Failed err) :
  (Accounts.code err = Some "ER_DUP_ENTRY" ->
   holds "username" (Accounts.message err) ->
   snd (Accounts.signup w username email password)
   = Response 409 (VObj [("success", VBool false);
                         ("message", VStr "Username already exists")]))
  /\ (Accounts.code err = Some "ER_DUP_ENTRY" ->
      ~ holds "username" (Accounts.message err) ->
      holds "email" (Accounts.message err) ->
      snd (Accounts.signup w username email password)
      = Response 409 (VObj [("success", VBool false);
                            ("message", VStr "Email already registered")]))
  /\ (Accounts.code err = Some "ER_DUP_ENTRY" ->
      ~ holds "username" (Accounts.message err) ->
      ~ holds "email" (Accounts.message err) ->
      snd (Accounts.signup w username email password)
      = Response 500 (VObj [("success", VBool false);
                            ("message", VStr "Internal server error")]))
  /\ (Accounts.code err <> Some "ER_DUP_ENTRY" ->
      snd (Accounts.signup w username email password)
      = Response 500 (VObj [("success", VBool false);
                            ("message", VStr "Internal server error")])).
Proof.
  rewrite (signup_run_well_formed w _ _ _ Hwf). cbv zeta.
  rewrite Hu, He, Hh, Hi. cbn [snd]. unfold Accounts.signup_error, holds.
  rewrite <- !includes_text_spec.
  split; [|split; [|split]].
  - intros -> ->. reflexivity.
  - intros -> Hn ->. apply not_true_is_false in Hn. now rewrite Hn.
  - intros -> Hn Hm. apply not_true_is_false in Hn, Hm. now rewrite Hn, Hm.
  - intros Hcode. destruct (Accounts.code err) as [c|]; [|reflexivity].
    destruct (String.eqb_spec c "ER_DUP_ENTRY"); [|reflexivity].
    subst c. contradiction.
Qed.

Lemma well_formed_racing_body :
  well_formed_signup (Some "bob_1") (Some "username@x.io") (Some "secret1").
Proof.
  exists "bob_1", "username@x.io", "secret1".
  repeat split; try (simpl; lia).
  apply emailRegex_spec. reflexivity.
Qed.

(** X5, when the address username@x.io is taken between the lookup and
    the insert: the duplicate is the address, the answer names the
    username. *)
Lemma signup_duplicate_key_witness :
  holds "username" (Accounts.message duplicate_email_error)
  /\ snd (Accounts.signup racing_store (Some "bob_1") (Some "username@x.io")
            (Some "secret1"))
     = Response 409 (VObj [("success", VBool false);
                           ("message", VStr "Username already exists")]).
Proof.
  assert (H : holds "username" (Accounts.message duplicate_email_error)).
  { exists "Duplicate entry '", "@x.io' for key 'users.email'". reflexivity. }
  split; [exact H|].
  exact (proj1 (signup_duplicate_key_answers racing_store (Some "bob_1")
                  (Some "username@x.io") (Some "secret1") "$2b$12$secret1"
                  duplicate_email_error eq_refl well_formed_racing_body
                  eq_refl eq_refl eq_refl eq_refl)
           eq_refl H).
Defined.

(** ** The route table *)

(** Case analysis on a request path and on the tests of [match_path],
    in a hypothesis on [first_match]. *)
Ltac route_cases E :=
  cbn -[String.eqb toLowerCase] in E;
  repeat match type of E with
         | context [match ?p with nil => _ | cons _ _ => _ end] =>
             is_var p; destruct p; cbn -[String.eqb toLowerCase] in E
         | context [if ?b then _ else _] =>
             destruct b eqn:?; cbn -[String.eqb toLowerCase] in E
         end.

Ltac lower_hyps :=
  repeat match goal with
         | H : String.eqb (toLowerCase ?l) (toLowerCase ?s) = _ |- _ =>
             let l' := eval vm_compute in (toLowerCase l) in
             change (toLowerCase l) with l' in H
         end.

Ltac eqb_facts :=
  lower_hyps;
  repeat match goal with
         | H : String.eqb _ _ = true |- _ =>
             apply String.eqb_eq in H; try symmetry in H
         | H : String.eqb _ _ = false |- _ => apply String.eqb_neq in H
         end.

Ltac route_goal :=
  cbn -[String.eqb toLowerCase];
  repeat match goal with
         | |- context [toLowerCase ?l] =>
             lazymatch l with
             | String _ _ =>
                 let l' := eval vm_compute in (toLowerCase l) in
                 change (toLowerCase l) with l'
             end
         end.

(** X6.  Among the requests whose path is written without
    percent-escapes, the route /api/games/:id takes every GET or HEAD
    request whose path has three segments, api and games in any letter
    case and then any non-empty segment, unless the public directory has
    a file of that path: the segment is bound to id as it is, be it
    stats, steam or anything else.  It takes no other request. *)
Theorem game_by_id_route_takes v public_has m path ps
  (Hverbatim : verbatim path = true) :
  dispatch v public_has m path = Handler GameById ps
  <-> reads m = true /\ public_has path = false
      /\ exists a b id,
          path = [a; b; id]
          /\ toLowerCase a = "api" /\ toLowerCase b = "games"
          /\ id <> "" /\ ps = [("id", id)].
Proof.
  unfold dispatch. split.
  - destruct (reads m) eqn:Hm, (public_has path) eqn:Hp; cbn [andb];
      try discriminate;
      destruct (first_match (routes v) m path) as [[h ps']|] eqn:E;
      try discriminate; intros [= -> ->];
      destruct v, m; try discriminate Hm; route_cases E;
      try discriminate E; injection E as <-; eqb_facts;
      (split; [reflexivity|]); (split; [reflexivity|]);
      do 3 eexists; repeat split; eauto; congruence.
  - intros [Hm [Hp [a [b [id [-> [Ha [Hb [Hid ->]]]]]]]]].
    rewrite Hm, Hp. cbn [andb].
    apply String.eqb_neq in Hid.
    destruct v, m; try discriminate Hm; route_goal;
      rewrite Ha, Hb, Hid; reflexivity.
Qed.

(** X6, on a HEAD request for /API/games/steam. *)
Lemma game_by_id_route_witness :
  dispatch VariantA no_public_file HEAD ["API"; "games"; "steam"]
  = Handler GameById [("id", "steam")].
Proof.
  apply (proj2 (game_by_id_route_takes VariantA no_public_file HEAD
                  ["API"; "games"; "steam"] [("id", "steam")] eq_refl)).
  split; [reflexivity|]. split; [reflexivity|].
  exists "API", "games", "steam". repeat split. discriminate.
Defined.

(** The Steam handler on an appid the route can bind. *)
Lemma game_by_steam_id_run w appid :
  appid <> "" ->
  Catalog.game_by_steam_id w appid =
  if isNaN appid then ([], failure 400 "Invalid Steam App ID")
  else
    let s := Stmt Catalog.game_by_steam_id_sql [PVal (VStr appid)] in
    match run_select w s with
    | None => ([s], failure 500 "Error fetching game")
    | Some [] => ([s], failure 404 "Game not found")
    | Some (game :: _) =>
        ([s], Response 200 (VObj [("success", VBool true);
                                  ("data", VObj [("game", VObj game)])]))
    end.
Proof.
  intros H. unfold Catalog.game_by_steam_id.
  rewrite (truthy_string appid H). cbn [negb orb].
  destruct (isNaN appid); [reflexivity|].
  unfold select, bind, try_catch. cbn zeta.
  destruct (run_select w _) as [[|game rows]|]; reflexivity.
Qed.

(** X7.  Among the requests whose path is written without
    percent-escapes, the route /api/games/steam/:appid takes exactly the
    GET and HEAD requests with four segments, api, games and steam in
    any letter case and then a non-empty appid (no earlier route shadows
    it).  On an appid of ASCII characters its handler answers 400 with
    the message Invalid Steam App ID exactly when the appid coerces to
    NaN, without a statement; otherwise it sends the one lookup with the
    appid as the parameter and answers 404 Game not found on no row, 200
    with the first row, 500 Error fetching game when the lookup
    fails. *)
Theorem steam_route_and_lookup v public_has w m path ps
  (Hverbatim : verbatim path = true) :
  (dispatch v public_has m path = Handler GameBySteamId ps
   <-> reads m = true /\ public_has path = false
       /\ exists a b c appid,
           path = [a; b; c; appid]
           /\ toLowerCase a = "api" /\ toLowerCase b = "games"
           /\ toLowerCase c = "steam"
           /\ appid <> "" /\ ps = [("appid", appid)])
  /\ (forall appid,
        dispatch v public_has m path = Handler GameBySteamId [("appid", appid)] ->
        ascii_text appid = true ->
        (snd (Catalog.game_by_steam_id w appid)
         = Response 400 (VObj [("success", VBool false);
                               ("message", VStr "Invalid Steam App ID")])
         <-> isNaN appid = true)
        /\ (isNaN appid = true -> fst (Catalog.game_by_steam_id w appid) = [])
        /\ (isNaN appid = false ->
            fst (Catalog.game_by_steam_id w appid)
            = [Stmt Catalog.game_by_steam_id_sql [PVal (VStr appid)]]
            /\ (run_select w (Stmt Catalog.game_by_steam_id_sql [PVal (VStr appid)])
                = Some [] ->
                snd (Catalog.game_by_steam_id w appid)
                = Response 404 (VObj [("success", VBool false);
                                      ("message", VStr "Game not found")]))
            /\ (run_select w (Stmt Catalog.game_by_steam_id_sql [PVal (VStr appid)])
                = None ->
                snd (Catalog.game_by_steam_id w appid)
                = Response 500 (VObj [("success", VBool false);
                                      ("message", VStr "Error fetching game")]))
            /\ (forall game others,
                  run_select w (Stmt Catalog.game_by_steam_id_sql [PVal (VStr appid)])
                  = Some (game :: others) ->
                  snd (Catalog.game_by_steam_id w appid)
                  = Response 200 (VObj [("success", VBool true);
                                        ("data", VObj [("game", VObj game)])])))).
Proof.
  assert (Hroute :
    dispatch v public_has m path = Handler GameBySteamId ps
    <-> reads m = true /\ public_has path = false
        /\ exists a b c appid,
            path = [a; b; c; appid]
            /\ toLowerCase a = "api" /\ toLowerCase b = "games"
            /\ toLowerCase c = "steam"
            /\ appid <> "" /\ ps = [("appid", appid)]).
  { unfold dispatch. split.
    - destruct (reads m) eqn:Hm, (public_has path) eqn:Hp; cbn [andb];
        try discriminate;
        destruct (first_match (routes v) m path) as [[h ps']|] eqn:E;
        try discriminate; intros [= -> ->];
        destruct v, m; try discriminate Hm; route_cases E;
        try discriminate E; injection E as <-; eqb_facts;
        (split; [reflexivity|]); (split; [reflexivity|]);
        do 4 eexists; repeat split; eauto; congruence.
    - intros [Hm [Hp [a [b [c [appid [-> [Ha [Hb [Hc [Hid ->]]]]]]]]]]].
      rewrite Hm, Hp. cbn [andb].
      apply String.eqb_neq in Hid.
      destruct v, m; try discriminate Hm; route_goal;
        rewrite Ha, Hb, Hc, Hid; cbn;
        repeat match goal with
               | |- context [if ?b then _ else _] => destruct b
               end; reflexivity. }
  split; [exact Hroute|].
  intros appid Hd _.
  assert (Hne : appid <> "").
  { clear Hroute. unfold dispatch in Hd.
    destruct (reads m && public_has path); [discriminate|].
    destruct (first_match (routes v) m path) as [[h ps']|] eqn:E;
      [|discriminate]. injection Hd as -> ->.
    destruct v, m; route_cases E; try discriminate E;
      injection E as <-; eqb_facts; congruence. }
  rewrite (game_by_steam_id_run w appid Hne).
  destruct (isNaN appid).
  - split; [tauto|]. split; [reflexivity | discriminate].
  - cbn zeta. split; [split; [|discriminate]|split; [discriminate|]].
    + destruct (run_select w _) as [[|game rows]|]; discriminate.
    + intros _.
      destruct (run_select w _) as [[|game rows]|];
        (split; [reflexivity|]); repeat split; intros; try discriminate;
        try reflexivity.
      match goal with H : Some _ = Some _ |- _ => injection H as <- <- end.
      reflexivity.
Qed.

(** X7, with a [public] directory without files and a lookup that
    finds nothing. *)
Lemma steam_route_witness :
  dispatch VariantA no_public_file GET ["api"; "games"; "steam"; "620"]
  = Handler GameBySteamId [("appid", "620")]
  /\ snd (Catalog.game_by_steam_id empty_backend "620")
     = Response 404 (VObj [("success", VBool false);
                           ("message", VStr "Game not found")]).
Proof.
  assert (Hd : dispatch VariantA no_public_file GET ["api"; "games"; "steam"; "620"]
               = Handler GameBySteamId [("appid", "620")]) by reflexivity.
  split; [exact Hd|].
  destruct (proj2 (steam_route_and_lookup VariantA no_public_file empty_backend
                     GET ["api"; "games"; "steam"; "620"] [("appid", "620")]
                     eq_refl)
              "620" Hd eq_refl) as [_ [_ H]].
  destruct (H eq_refl) as [_ [H404 _]]. exact (H404 eq_refl).
Defined.

(** X8.  What a method can reach, on a path written without
    percent-escapes.  When the body parsers have read the body, a POST
    reaches the login handler, in variant A also the signup handler, and
    nothing else, and is never served a file; a GET or HEAD never
    reaches those two; a request with any other method is answered by
    the final 404 handler, whatever its path.  When a body parser could
    not read the body, the request is passed to the error-handling
    middleware, whatever its method and path. *)
Theorem methods_and_handlers v public_has body_read path
  (Hverbatim : verbatim path = true) :
  (forall h ps,
      application v public_has body_read POST path = Routed (Handler h ps) ->
      ps = [] /\ (h = Login \/ (h = Signup /\ v = VariantA)))
  /\ (forall m h ps,
        reads m = true ->
        application v public_has body_read m path = Routed (Handler h ps) ->
        h <> Login /\ h <> Signup)
  /\ (body_read = true ->
      application v public_has body_read OtherMethod path = Routed EndpointNotFound)
  /\ application v public_has body_read POST path <> Routed StaticFile
  /\ (body_read = false ->
      forall m, application v public_has body_read m path = UnhandledError).
Proof.
  unfold application. destruct body_read.
  2:{ split; [discriminate|]. split; [discriminate|].
      split; [discriminate|]. split; [discriminate | reflexivity]. }
  unfold dispatch. split; [|split; [|split; [|split]]].
  - intros h ps. cbn [reads andb].
    destruct (first_match (routes v) POST path) as [[h' ps']|] eqn:E;
      [|discriminate]. intros [= -> ->].
    destruct v; route_cases E; try discriminate E; injection E as <- <-; auto.
  - intros m h ps Hm.
    destruct (reads m && public_has path); [discriminate|].
    destruct (first_match (routes v) m path) as [[h' ps']|] eqn:E;
      [|discriminate]. intros [= -> ->].
    destruct v, m; try discriminate Hm; route_cases E; try discriminate E;
      injection E as <- <-; split; discriminate.
  - intros _. cbn [reads andb]. destruct v; reflexivity.
  - cbn [reads andb].
    destruct (first_match (routes v) POST path) as [[h ps]|]; discriminate.
  - discriminate.
Qed.

(** X8, on a PUT of /api/games whose body was read, and on one whose
    body was not. *)
Lemma methods_and_handlers_witness :
  application VariantA no_public_file true OtherMethod ["api"; "games"]
  = Routed EndpointNotFound
  /\ application VariantA no_public_file false OtherMethod ["api"; "games"]
     = UnhandledError.
Proof.
  split.
  - exact (proj1 (proj2 (proj2 (methods_and_handlers VariantA no_public_file
                                  true ["api"; "games"] eq_refl))) eq_refl).
  - exact (proj2 (proj2 (proj2 (proj2 (methods_and_handlers VariantA
                                         no_public_file false ["api"; "games"]
                                         eq_refl)))) eq_refl OtherMethod).
Defined.

(** X9.  Variant A extends variant B: a request that variant B routes
    to a handler is routed by variant A to the same handler with the
    same parameters, and a request that variant B serves from the
    public directory is served from it by variant A. *)
Theorem variantA_extends_variantB public_has m path :
  (forall h ps,
      dispatch VariantB public_has m path = Handler h ps ->
      dispatch VariantA public_has m path = Handler h ps)
  /\ (dispatch VariantB public_has m path = StaticFile ->
      dispatch VariantA public_has m path = StaticFile).
Proof.
  unfold dispatch.
  destruct (reads m && public_has path);
    [split; [discriminate | reflexivity]|].
  split.
  - intros h ps.
    destruct (first_match (routes VariantB) m path) as [[h' ps']|] eqn:E;
      [|discriminate]. intros [= -> ->].
    destruct m; route_cases E; try discriminate E; injection E as <- <-;
      lower_hyps; route_goal;
      repeat match goal with
             | H : String.eqb ?a ?b = _ |- context [String.eqb ?a ?b] =>
                 rewrite H
             end;
      eqb_facts;
      repeat match goal with
             | H : toLowerCase ?s = _ |- context [toLowerCase ?s] => rewrite H
             end;
      reflexivity.
  - destruct (first_match (routes VariantB) m path) as [[h' ps']|]; discriminate.
Qed.

(** ** More on the listing *)

(** X10.  The values of the filters never enter the text of a query.
    Two requests that have the same filters present, the same sort
    column, the same page size and the same offset produce the same
    count text and the same fetch text, whatever their search text and
    bounds are: those travel as parameters only. *)
Theorem filter_values_stay_out_of_text v q q' d
  (Hmask : filter_mask v q = filter_mask v q')
  (Hcolumn : sortColumn q = sortColumn q')
  (Hlimit : limitNum v q = limitNum v q')
  (Hoffset : offset v q = offset v q') :
  sql (count_stmt v q) = sql (count_stmt v q')
  /\ sql (fetch_stmt v q d) = sql (fetch_stmt v q' d)
  /\ args (count_stmt v q) = pick (filter_mask v q) (filter_values q).
Proof.
  unfold count_stmt, fetch_stmt, countQuery, gamesQuery, whereClause.
  cbn [sql args]. rewrite !build_filters_pick. cbn [whereConditions baseParams].
  now rewrite Hmask, Hcolumn, Hlimit, Hoffset.
Qed.

(** X10, on two requests that differ in the search text only. *)
Lemma filter_values_witness :
  search portal_request <> search quoting_request
  /\ sql (count_stmt VariantA portal_request) = sql (count_stmt VariantA quoting_request)
  /\ sql (fetch_stmt VariantA portal_request "DESC")
     = sql (fetch_stmt VariantA quoting_request "DESC").
Proof.
  destruct (filter_values_stay_out_of_text VariantA portal_request quoting_request
              "DESC" eq_refl eq_refl eq_refl eq_refl) as [H1 [H2 _]].
  split; [discriminate|]. split; [exact H1 | exact H2].
Defined.

Lemma uint_digits d : every is_digit (NilEmpty.string_of_uint d) = true.
Proof. induction d; simpl; auto. Qed.

Lemma nonnegative_digits z :
  0 <= z ->
  every is_digit (num_to_string (Fin z)) = true /\ num_to_string (Fin z) <> "".
Proof.
  intros Hz. unfold num_to_string, NilZero.string_of_int, NilZero.string_of_uint.
  destruct z as [|p|p]; [split; [reflexivity | discriminate] | | lia].
  cbn [Z.to_int]. destruct (Pos.to_uint p) eqn:E;
    (split; [first [reflexivity | rewrite <- E; apply uint_digits]
            | try discriminate]).
Qed.

(** X11.  Variant A writes the page size and the offset into the fetch
    text.  On a request that it reads to the letter and whose page
    number is 2^46 at most, what it writes is a pair of non-empty
    strings of decimal digits: a page size between 1 and 100 and the
    offset (page - 1) * size.  With the column from the allow-list and
    the direction ASC or DESC, nothing of the request is copied into the
    text as it came. *)
Theorem variantA_writes_digits q d p
  (Hplain : plain_query VariantA q = true)
  (Hd : sortOrder q = Returned d)
  (Hp : pageNum VariantA q = Fin p)
  (Hsmall : p <= exact_pages) :
  exists l o column,
    sql (fetch_stmt VariantA q d)
    = games_select VariantA
      ++ where_text (pick (filter_mask VariantA q) fixed_predicates)
      ++ " ORDER BY " ++ column ++ " " ++ d
      ++ " LIMIT " ++ num_to_string (Fin l)
      ++ " OFFSET " ++ num_to_string (Fin o)
    /\ 1 <= l <= 100 /\ o = (p - 1) * l /\ 0 <= o
    /\ every is_digit (num_to_string (Fin l)) = true
    /\ num_to_string (Fin l) <> ""
    /\ every is_digit (num_to_string (Fin o)) = true
    /\ num_to_string (Fin o) <> ""
    /\ In column validSortColumns
    /\ (d = "ASC" \/ d = "DESC").
Proof.
  destruct (pagination_clamped_variantA q)
    as [p' [l [Hp' [Hl [Hp1 [Hl1 [Ho _]]]]]]].
  rewrite Hp in Hp'. injection Hp' as <-.
  destruct (sortColumn_allowed q) as [c [Hc Hin]].
  exists l, ((p - 1) * l), c.
  assert (H0 : 0 <= (p - 1) * l) by nia.
  destruct (nonnegative_digits l ltac:(lia)) as [Hld Hln].
  destruct (nonnegative_digits _ H0) as [Hod Hon].
  repeat split; auto; try lia; [|exact (sortOrder_cases q d Hd)].
  unfold fetch_stmt, gamesQuery, whereClause, games_order_page. cbn [sql].
  rewrite build_filters_pick, Hl, Ho, Hc. reflexivity.
Qed.

(** X11, on a request whose page and limit do not parse to a page and a
    size. *)
Lemma variantA_writes_digits_witness :
  exists l o column,
    sql (fetch_stmt VariantA garbage_request "ASC")
    = games_select VariantA
      ++ where_text (pick (filter_mask VariantA garbage_request) fixed_predicates)
      ++ " ORDER BY " ++ column ++ " " ++ "ASC"
      ++ " LIMIT " ++ num_to_string (Fin l)
      ++ " OFFSET " ++ num_to_string (Fin o)
    /\ 1 <= l <= 100 /\ o = (1 - 1) * l.
Proof.
  destruct (variantA_writes_digits garbage_request "ASC" 1 eq_refl eq_refl
              eq_refl ltac:(discriminate))
    as [l [o [c [H [Hl [Ho _]]]]]].
  exists l, o, c. auto.
Defined.

Lemma pageNum_at_least_one v q p : pageNum v q = Fin p -> 1 <= p.
Proof.
  unfold pageNum. destruct v.
  - destruct (parseInt_cases (or_default (page q) (VNum (Fin 1)))) as [-> | [z ->]];
      unfold num_or, truthy; cbn [negb Math_max];
      [intros [= <-]; lia|].
    destruct (Z.eqb_spec z 0); cbn [negb Math_max]; intros [= <-]; lia.
  - destruct (parseInt_cases (or_default (page q) (VNum (Fin 1)))) as [-> | [z ->]];
      cbn [Math_max]; [discriminate | intros [= <-]; lia].
Qed.

(** X12.  With an integer page number and page size, hasNextPage is true
    exactly when the engine counted more rows than the offset and one
    page can hold, that is when rows remain after this page; and when
    the engine counts no row, the response says page 1 (or beyond) of 0
    pages, with no next page. *)
Theorem next_page_iff_rows_remain v q total p l
  (Hp : pageNum v q = Fin p) (Hl : limitNum v q = Fin l) :
  exists o,
    offset v q = Fin o
    /\ (hasNextPage (page_info total (pageNum v q) (limitNum v q)) = true
        <-> o + l < total)
    /\ (total = 0 ->
        totalPages (page_info total (pageNum v q) (limitNum v q)) = Fin 0
        /\ hasNextPage (page_info total (pageNum v q) (limitNum v q)) = false
        /\ 1 <= p).
Proof.
  pose proof (limitNum_range v q l Hl) as Hrange.
  exists ((p - 1) * l). unfold offset. rewrite Hp, Hl. cbn [num_sub num_mul].
  split; [reflexivity|].
  destruct (Math_ceil_div_spec total l ltac:(lia)) as [k [Hk Hkl]].
  unfold page_info. cbn [hasNextPage totalPages]. rewrite Hk. cbn [num_lt].
  split.
  - rewrite Z.ltb_lt. split; intros H; nia.
  - intros ->. assert (k = 0) by nia. subst k.
    pose proof (pageNum_at_least_one v q p Hp) as H1.
    split; [reflexivity|]. split; [apply Z.ltb_ge; lia | exact H1].
Qed.

(** X12, on the portal request over twelve rows: page 1 of size 5 has a
    next page, since 0 + 5 < 12. *)
Lemma next_page_witness :
  exists o,
    offset VariantA portal_request = Fin o
    /\ (hasNextPage (page_info 12 (pageNum VariantA portal_request)
                       (limitNum VariantA portal_request)) = true
        <-> o + 5 < 12).
Proof.
  destruct (next_page_iff_rows_remain VariantA portal_request 12 1 5
              eq_refl eq_refl) as [o [Ho [H _]]].
  exists o. auto.
Defined.

(** X13.  The listing never rejects a request as invalid: its answer
    is 200 or 500.  Against an engine that accepts every statement, the
    answer is 200 exactly when the values the handler coerces have a
    string and the order is absent or a string, whatever the search, the
    bounds, the sort column, the page and the limit hold; and a request
    answered 500 there has sent nothing. *)
Theorem listing_never_rejects v w q :
  (status (snd (list_games v w q)) = 200 \/ status (snd (list_games v w q)) = 500)
  /\ ((forall s, run_count w s <> None) ->
      (forall s, run_select w s <> None) ->
      (status (snd (list_games v w q)) = 200
       <-> coerces v q = true
           /\ (order q = VUndef \/ exists s, order q = VStr s))
      /\ (status (snd (list_games v w q)) = 500 ->
          fst (list_games v w q) = [])).
Proof.
  rewrite list_games_run. split.
  - destruct (coerces v q); [|now right].
    destruct (sortOrder q); [|now right].
    destruct (run_count w _); [|now right].
    destruct (run_select w _); [now left | now right].
  - intros Hcount Hselect.
    pose proof (sortOrder_returns q) as Hreturns.
    destruct (coerces v q).
    2:{ cbn [snd fst status games_error failure]. split; [|reflexivity].
        split; [discriminate | intros [H _]; discriminate]. }
    destruct (sortOrder q) as [d|] eqn:Hd.
    + destruct (run_count w (count_stmt v q)) as [total|] eqn:Ec;
        [|exfalso; exact (Hcount _ Ec)].
      destruct (run_select w (fetch_stmt v q d)) as [games|] eqn:Es;
        [|exfalso; exact (Hselect _ Es)].
      cbn [snd status fst]. split; [|discriminate].
      split; [intros _; split; [reflexivity | apply Hreturns; eauto]
             | reflexivity].
    + cbn [snd fst]. split; [|reflexivity].
      split; [discriminate|].
      intros [_ H]. apply Hreturns in H. destruct H as [d H]. discriminate.
Qed.

(** ** More on login *)

(** X14.  A login is answered 200 only when both fields were given, the
    lookup by username returned at least one row, and bcrypt.compare
    said true for the supplied password against the hash of the first
    of those rows; and then it is.  Whatever the answer, at most the one
    lookup is sent, and none when a field is missing. *)
Theorem login_succeeds_only_on_valid_password v w username password :
  (status (snd (login v w username password)) = 200
   <-> truthy username = true /\ truthy password = true
       /\ exists user others,
           run_select w (Stmt (login_sql v) [PVal username]) = Some (user :: others)
           /\ bcrypt_compare w password (field "password_hash" user) = Some true)
  /\ (fst (login v w username password) = []
      \/ fst (login v w username password) = [Stmt (login_sql v) [PVal username]])
  /\ (truthy username = false \/ truthy password = false ->
      login v w username password
      = ([], failure 400 "Username and password are required")).
Proof.
  unfold login, select, bind, lift, ret, throw, try_catch.
  destruct (truthy username), (truthy password); cbn [negb orb];
    try (split; [split; [discriminate | intros [H1 [H2 _]]; discriminate]
                | split; [now left | reflexivity]]).
  destruct (run_select w _) as [[|user others]|]; cbn [fst snd status app].
  - split; [split; [discriminate | intros [_ [_ [u [o [H _]]]]]; discriminate]|].
    split; [now right | intros [H | H]; discriminate].
  - destruct (bcrypt_compare w password _) as [[|]|] eqn:Hc; cbn [fst snd status app negb].
    + split; [split; [intros _; repeat split; eauto | reflexivity]|].
      split; [now right | intros [H | H]; discriminate].
    + split; [split; [discriminate|]|].
      * intros [_ [_ [u [o [[= <- <-] H]]]]]. congruence.
      * split; [now right | intros [H | H]; discriminate].
    + split; [split; [discriminate|]|].
      * intros [_ [_ [u [o [[= <- <-] H]]]]]. congruence.
      * split; [now right | intros [H | H]; discriminate].
  - split; [split; [discriminate | intros [_ [_ [u [o [H _]]]]]; discriminate]|].
    split; [now right | intros [H | H]; discriminate].
Qed.

(** ** The pager of the dashboard *)

Lemma from_to_In first last i :
  In i (Dashboard.from_to first last) <-> first <= i <= last.
Proof.
  unfold Dashboard.from_to. rewrite in_map_iff. split.
  - intros [k [<- Hk]]. apply in_seq in Hk. lia.
  - intros H. exists (Z.to_nat (i - first)). split; [lia|].
    apply in_seq. lia.
Qed.

Lemma from_to_length first last :
  List.length (Dashboard.from_to first last) = Z.to_nat (last - first + 1).
Proof. unfold Dashboard.from_to. now rewrite length_map, length_seq. Qed.

Lemma append_assoc (a b c : string) : (a ++ b) ++ c = a ++ (b ++ c).
Proof. induction a as [|x a IH]; simpl; [reflexivity | now rewrite IH]. Qed.

Lemma fold_left_append (f : Z -> string) l acc :
  fold_left (fun a i => a ++ f i) l acc = acc ++ String.concat "" (map f l).
Proof.
  revert acc. induction l as [|x l IH]; intros acc; cbn [fold_left map].
  - simpl. now rewrite append_empty_r.
  - rewrite IH. destruct l as [|y l].
    + simpl. now rewrite !append_empty_r.
    + change (String.concat "" (f x :: map f (y :: l)))
        with (f x ++ "" ++ String.concat "" (map f (y :: l))).
      change ("" ++ String.concat "" (map f (y :: l)))
        with (String.concat "" (map f (y :: l))).
      apply append_assoc.
Qed.

(** X15.  The page numbers the pager lists are the pages within two of
    the current one that exist, five at most; updatePagination leaves
    the globals at the page and the page count of the response, and on
    those globals changePage accepts every listed number and moves to
    it.  The pager is empty when there is one page or none; otherwise
    its numbered items stand between the opening list tag, with the
    Previous item if the response has a previous page, and the rest. *)
Theorem pager_numbers_are_live p :
  fst (Dashboard.updatePagination p)
  = Dashboard.Globals (Dashboard.page p) (Dashboard.pages p)
  /\ (forall i,
        In i (Dashboard.page_window (Dashboard.page p) (Dashboard.pages p))
        <-> 1 <= i <= Dashboard.pages p
            /\ Dashboard.page p - 2 <= i <= Dashboard.page p + 2)
  /\ (forall i,
        In i (Dashboard.page_window (Dashboard.page p) (Dashboard.pages p)) ->
        Dashboard.changePage i (fst (Dashboard.updatePagination p))
        = (Dashboard.Globals i (Dashboard.pages p), true))
  /\ (List.length (Dashboard.page_window (Dashboard.page p) (Dashboard.pages p))
      <= 5)%nat
  /\ (Dashboard.pages p <= 1 -> snd (Dashboard.updatePagination p) = "")
  /\ (1 < Dashboard.pages p ->
      exists tail,
        snd (Dashboard.updatePagination p)
        = "<nav><ul " ++ Dashboard.attr "class" "pagination" ++ ">"
          ++ (if Dashboard.hasPrevPage p
              then "<li " ++ Dashboard.attr "class" "page-item" ++ ">"
                   ++ Dashboard.link (Dashboard.page p - 1) "Previous" ++ "</li>"
              else "")
          ++ String.concat ""
               (map (Dashboard.page_item (Dashboard.page p))
                  (Dashboard.page_window (Dashboard.page p) (Dashboard.pages p)))
          ++ tail).
Proof.
  assert (Hg : fst (Dashboard.updatePagination p)
               = Dashboard.Globals (Dashboard.page p) (Dashboard.pages p)).
  { unfold Dashboard.updatePagination. cbv zeta.
    now destruct (Dashboard.pages p <=? 1). }
  assert (Hin : forall i,
             In i (Dashboard.page_window (Dashboard.page p) (Dashboard.pages p))
             <-> 1 <= i <= Dashboard.pages p
                 /\ Dashboard.page p - 2 <= i <= Dashboard.page p + 2).
  { intros i. unfold Dashboard.page_window. cbv zeta. rewrite from_to_In. lia. }
  split; [exact Hg|]. split; [exact Hin|]. split; [|split; [|split]].
  - intros i Hi. apply Hin in Hi. rewrite Hg. unfold Dashboard.changePage.
    cbn [Dashboard.totalPages].
    destruct (Z.leb_spec 1 i), (Z.leb_spec i (Dashboard.pages p)); try lia.
    reflexivity.
  - unfold Dashboard.page_window. cbv zeta. rewrite from_to_length. lia.
  - intros H. unfold Dashboard.updatePagination. cbv zeta.
    destruct (Z.leb_spec (Dashboard.pages p) 1); [reflexivity | lia].
  - intros H. unfold Dashboard.updatePagination. cbv zeta.
    destruct (Z.leb_spec (Dashboard.pages p) 1); [lia|]. cbn [snd].
    rewrite fold_left_append.
    set (items := String.concat "" _).
    destruct (Dashboard.hasPrevPage p), (Dashboard.hasNextPage p);
      eexists; rewrite ?append_assoc;
      change ("" ++ items) with items;
      repeat (apply (f_equal2 append); [reflexivity|]); reflexivity.
Qed.

(** The pagination of a listing with an integer page and page size, as
    the dashboard reads it. *)
Lemma listing_view v q total p l :
  pageNum v q = Fin p -> limitNum v q = Fin l ->
  exists k,
    1 <= p /\ 1 <= l <= 100
    /\ (k - 1) * l < total <= k * l
    /\ dashboard_view (page_info total (pageNum v q) (limitNum v q))
       = Some (Dashboard.Pagination p k total l (p <? k) (1 <? p)).
Proof.
  intros Hp Hl.
  pose proof (pageNum_at_least_one v q p Hp) as Hp1.
  pose proof (limitNum_range v q l Hl) as Hl1.
  destruct (Math_ceil_div_spec total l ltac:(lia)) as [k [Hk Hkl]].
  exists k. rewrite Hp, Hl.
  repeat (split; [auto; lia|]).
  unfold page_info, dashboard_view.
  cbn [Server.currentPage Server.totalPages Server.totalGames Server.gamesPerPage
       Server.hasNextPage Server.hasPrevPage].
  rewrite Hk. reflexivity.
Qed.

(** X16.  The dashboard on a listing whose page number (2^46 at most)
    and page size are integers and whose total is below 2^45.  The
    pagination of the response reads as integers, with a page number
    from 1 on.  When the response has a next page, the Next link of the
    pager is live: changePage accepts its target.  When it has a
    previous page and the page is one that exists, the Previous link is
    live as well. *)
Theorem dashboard_links_live v q total p l
  (Hp : pageNum v q = Fin p) (Hl : limitNum v q = Fin l)
  (Hsmall : p <= exact_pages) (Htotal : 0 <= total < exact_rows) :
  exists view,
    dashboard_view (page_info total (pageNum v q) (limitNum v q))
    = Some view
    /\ Dashboard.page view = p /\ 1 <= p
    /\ Dashboard.gamesPerPage view = l /\ Dashboard.totalGames view = total
    /\ (Dashboard.hasNextPage view = true ->
        Dashboard.changePage (p + 1) (fst (Dashboard.updatePagination view))
        = (Dashboard.Globals (p + 1) (Dashboard.pages view), true))
    /\ (Dashboard.hasPrevPage view = true ->
        p <= Dashboard.pages view ->
        Dashboard.changePage (p - 1) (fst (Dashboard.updatePagination view))
        = (Dashboard.Globals (p - 1) (Dashboard.pages view), true)).
Proof.
  destruct (listing_view v q total p l Hp Hl) as [k [Hp1 [_ [_ Hview]]]].
  eexists. split; [exact Hview|].
  cbn [Dashboard.page Dashboard.pages Dashboard.hasNextPage Dashboard.hasPrevPage
       Dashboard.gamesPerPage Dashboard.totalGames].
  assert (Hg : fst (Dashboard.updatePagination
                      (Dashboard.Pagination p k total l (p <? k) (1 <? p)))
               = Dashboard.Globals p k).
  { unfold Dashboard.updatePagination. cbv zeta.
    cbn [Dashboard.page Dashboard.pages]. now destruct (k <=? 1). }
  rewrite Hg. unfold Dashboard.changePage. cbn [Dashboard.totalPages].
  do 4 (split; [first [reflexivity | exact Hp1]|]). split.
  - intros H. apply Z.ltb_lt in H.
    destruct (Z.leb_spec 1 (p + 1)), (Z.leb_spec (p + 1) k); try lia.
    reflexivity.
  - intros H Hk. apply Z.ltb_lt in H.
    destruct (Z.leb_spec 1 (p - 1)), (Z.leb_spec (p - 1) k); try lia.
    reflexivity.
Qed.

(** X16, on page 2 of the portal listing over twelve rows: both links
    are live. *)
Lemma dashboard_links_witness :
  exists view,
    dashboard_view (page_info 12 (pageNum VariantA portal_page_two)
                      (limitNum VariantA portal_page_two))
    = Some view
    /\ Dashboard.hasNextPage view = true /\ Dashboard.hasPrevPage view = true
    /\ snd (Dashboard.changePage 3 (fst (Dashboard.updatePagination view))) = true
    /\ snd (Dashboard.changePage 1 (fst (Dashboard.updatePagination view))) = true.
Proof.
  destruct (dashboard_links_live VariantA portal_page_two 12 2 5
              eq_refl eq_refl ltac:(discriminate) ltac:(split; [discriminate | reflexivity]))
    as [view [Hview [_ [_ [_ [_ [Hnext Hprev]]]]]]].
  exists view. split; [exact Hview|].
  assert (E : Some view
              = Some (Dashboard.Pagination 2 3 12 5 true true)).
  { rewrite <- Hview. reflexivity. }
  injection E as ->.
  split; [reflexivity|]. split; [reflexivity|].
  split; [exact (f_equal snd (Hnext eq_refl))
         | exact (f_equal snd (Hprev eq_refl ltac:(discriminate)))].
Defined.

(** X17.  The line under the pager, on a listing whose page number (2^46
    at most) and page size are integers and whose total is below 2^45.
    On a page that exists (between 1 and the page count), it shows a
    range that starts at 1 or later, ends at the total or earlier, is
    not empty and is no longer than a page; it is as long as a page on
    every page but the last, and ends at the total on the last. *)
Theorem dashboard_range_shown v q total p l
  (Hp : pageNum v q = Fin p) (Hl : limitNum v q = Fin l)
  (Hsmall : p <= exact_pages) (Htotal : 0 <= total < exact_rows) :
  exists view,
    dashboard_view (page_info total (pageNum v q) (limitNum v q))
    = Some view
    /\ (Dashboard.page view <= Dashboard.pages view ->
        1 <= Dashboard.showing_from view <= Dashboard.showing_to view
        /\ Dashboard.showing_to view <= Dashboard.totalGames view
        /\ Dashboard.showing_to view - Dashboard.showing_from view + 1
           <= Dashboard.gamesPerPage view
        /\ (Dashboard.page view < Dashboard.pages view ->
            Dashboard.showing_to view - Dashboard.showing_from view + 1
            = Dashboard.gamesPerPage view)
        /\ (Dashboard.page view = Dashboard.pages view ->
            Dashboard.showing_to view = Dashboard.totalGames view)).
Proof.
  destruct (listing_view v q total p l Hp Hl) as [k [Hp1 [Hl1 [Hk Hview]]]].
  eexists. split; [exact Hview|].
  unfold Dashboard.showing_from, Dashboard.showing_to.
  cbn [Dashboard.page Dashboard.pages Dashboard.totalGames Dashboard.gamesPerPage].
  intros Hin. repeat split; nia.
Qed.

(** X17, on page 3 of the portal listing over twelve rows: the line
    shows 11 to 12. *)
Lemma dashboard_range_witness :
  exists view,
    dashboard_view (page_info 12 (pageNum VariantA portal_page_three)
                      (limitNum VariantA portal_page_three))
    = Some view
    /\ Dashboard.showing_from view = 11 /\ Dashboard.showing_to view = 12
    /\ Dashboard.showing_to view = Dashboard.totalGames view.
Proof.
  destruct (dashboard_range_shown VariantA portal_page_three 12 3 5
              eq_refl eq_refl ltac:(discriminate) ltac:(split; [discriminate | reflexivity]))
    as [view [Hview Hrange]].
  exists view. split; [exact Hview|].
  assert (E : Some view
              = Some (Dashboard.Pagination 3 3 12 5 false true)).
  { rewrite <- Hview. reflexivity. }
  injection E as ->.
  split; [reflexivity|]. split; [reflexivity|].
  exact (proj2 (proj2 (proj2 (proj2 (Hrange ltac:(discriminate))))) eq_refl).
Defined.

(** ** Signup and login on one table *)

Lemma map_nil_inv {A B} (f : A -> B) l : map f l = [] -> l = [].
Proof. destruct l; [reflexivity | discriminate]. Qed.

(** What a signup leaves of the table: nothing new, or, with a 201, one
    new row whose username and address no earlier row has. *)
Lemma signup_table_after c t username email password :
  (Users.after c t
     (fst (Accounts.signup (Users.signup_store c t) username email password)) = t
   /\ status (snd (Accounts.signup (Users.signup_store c t) username email password))
      <> 201)
  \/ exists h,
      Users.after c t
        (fst (Accounts.signup (Users.signup_store c t) username email password))
      = (t ++ [Users.User (Users.next_id t) (Accounts.text username)
                 (Accounts.text email) h])%list
      /\ Users.hash_of c (Accounts.text password) 12 = Accounts.Done h
      /\ Users.named c (Accounts.text username) t = []
      /\ Users.mailed c (Accounts.text email) t = []
      /\ well_formed_signup username email password
      /\ snd (Accounts.signup (Users.signup_store c t) username email password)
         = Response 201
             (created_body (Users.next_id t) (Accounts.text username)
                (Accounts.text email)).
Proof.
  destruct (well_formed_signup_dec username email password) as [Hwf | Hill].
  2:{ destruct (signup_run_ill_formed (Users.signup_store c t) _ _ _ Hill)
        as [Hsent Hstatus].
      left. rewrite Hsent, Hstatus. split; [reflexivity | discriminate]. }
  rewrite (signup_run_well_formed _ _ _ _ Hwf). cbv zeta.
  set (u := Accounts.text username). set (e := Accounts.text email).
  set (p := Accounts.text password).
  assert (Hstatus : forall err, status (Accounts.signup_error err) <> 201).
  { intros err. destruct (signup_error_status err) as [E | E]; rewrite E; discriminate. }
  assert (Hfu : Users.after_stmt c t (find_username_stmt u) = t) by reflexivity.
  assert (Hfe : Users.after_stmt c t (find_email_stmt e) = t) by reflexivity.
  change (Accounts.find_rows (Users.signup_store c t) (find_username_stmt u))
    with (Accounts.Done (map Users.id_row (Users.named c u t))).
  change (Accounts.find_rows (Users.signup_store c t) (find_email_stmt e))
    with (Accounts.Done (map Users.id_row (Users.mailed c e t))).
  destruct (map Users.id_row (Users.named c u t)) as [|r rs] eqn:En.
  2:{ left. cbn [fst snd]. unfold Users.after. cbn [fold_left]. rewrite Hfu.
      split; [reflexivity | discriminate]. }
  apply map_nil_inv in En.
  destruct (map Users.id_row (Users.mailed c e t)) as [|r rs] eqn:Em.
  2:{ left. cbn [fst snd]. unfold Users.after. cbn [fold_left]. rewrite Hfu, Hfe.
      split; [reflexivity | discriminate]. }
  apply map_nil_inv in Em.
  change (Accounts.bcrypt_hash (Users.signup_store c t) p 12)
    with (Users.hash_of c p 12).
  destruct (Users.hash_of c p 12) as [h|err] eqn:Eh.
  2:{ left. cbn [fst snd]. unfold Users.after. cbn [fold_left]. rewrite Hfu, Hfe.
      split; [reflexivity | apply Hstatus]. }
  assert (Hins : Users.inserted c t (insert_user_stmt u e h)
                 = Accounts.Done (Users.User (Users.next_id t) u e h)).
  { unfold Users.inserted, insert_user_stmt. cbn [args sql].
    rewrite String.eqb_refl, En, Em. cbn [negb List.length Nat.ltb Nat.leb].
    rewrite !andb_false_r. reflexivity. }
  change (Accounts.insert_row (Users.signup_store c t) (insert_user_stmt u e h))
    with (match Users.inserted c t (insert_user_stmt u e h) with
          | Accounts.Done x => Accounts.Done (Users.user_id x)
          | Accounts.Failed err => Accounts.Failed err
          end).
  rewrite Hins. cbn [Users.user_id fst snd].
  right. exists h. unfold Users.after. cbn [fold_left]. rewrite Hfu, Hfe.
  unfold Users.after_stmt at 1. rewrite Hins. auto 10.
Qed.

Lemma named_app c u t t' :
  Users.named c u (t ++ t') = (Users.named c u t ++ Users.named c u t')%list.
Proof. apply filter_app. Qed.

(** X18.  Signup, then login, on one table.  When the engine compares a
    string as equal to itself and bcrypt verifies a password against
    its own hash, a signup answered 201 has added one row to the table,
    its id the next id, its password column the hash; and a login with
    the same username and password on the table it left is answered 200
    with that username (and, in variant A, that id). *)
Theorem signup_then_login c t v username email password
  (Hrefl : forall x, Users.same c x x = true)
  (Hbcrypt : forall pw h,
      Users.hash_of c pw 12 = Accounts.Done h ->
      Users.verify c (VStr pw) (VStr h) = Some true)
  (Hcreated :
     status (snd (Accounts.signup (Users.signup_store c t) username email password))
     = 201) :
  exists h,
    Users.after c t
      (fst (Accounts.signup (Users.signup_store c t) username email password))
    = (t ++ [Users.User (Users.next_id t) (Accounts.text username)
               (Accounts.text email) h])%list
    /\ Users.hash_of c (Accounts.text password) 12 = Accounts.Done h
    /\ login v
         (Users.login_backend c v
            (Users.after c t
               (fst (Accounts.signup (Users.signup_store c t)
                       username email password))))
         (VStr (Accounts.text username)) (VStr (Accounts.text password))
       = ([Stmt (login_sql v) [PVal (VStr (Accounts.text username))]],
          Response 200
            (VObj [("success", VBool true);
                   ("message", VStr "Login successful");
                   ("user",
                    match v with
                    | VariantA =>
                        VObj [("username", VStr (Accounts.text username));
                              ("id", VNum (Fin (Users.next_id t)))]
                    | VariantB =>
                        VObj [("username", VStr (Accounts.text username))]
                    end)])).
Proof.
  destruct (signup_table_after c t username email password)
    as [[_ Hno] | [h [Hafter [Hh [Hn [_ [Hwf _]]]]]]]; [contradiction|].
  exists h. split; [exact Hafter|]. split; [exact Hh|].
  rewrite Hafter.
  destruct Hwf as [u [e [p [-> [-> [-> [Hlen [_ [_ Hpass]]]]]]]]].
  cbn [Accounts.text] in *.
  assert (Hu : truthy (VStr u) = true).
  { apply truthy_string. intros ->. simpl in Hlen. lia. }
  assert (Hp : truthy (VStr p) = true).
  { apply truthy_string. intros ->. simpl in Hpass. lia. }
  unfold login. rewrite Hu, Hp. cbn [negb orb].
  unfold select, bind, lift, ret, try_catch.
  unfold Users.login_backend at 1. cbn [run_select args sql].
  rewrite String.eqb_refl, named_app, Hn. cbn [app Users.named filter Users.user_name].
  rewrite Hrefl. cbn [map].
  assert (Hfield : field "password_hash"
                     (Users.login_row v (Users.User (Users.next_id t) u e h))
                   = VStr h) by (destruct v; reflexivity).
  rewrite Hfield. cbn [bcrypt_compare Users.login_backend].
  rewrite (Hbcrypt p h Hh). cbn [negb app].
  destruct v; reflexivity.
Qed.

(** X18, for a second user on a table that holds one. *)
Lemma signup_then_login_witness :
  exists h,
    Users.after plain_setting one_user
      (fst (Accounts.signup (Users.signup_store plain_setting one_user)
              (Some "bob_1") (Some "bob@x.io") (Some "hunter22")))
    = (one_user ++ [Users.User 2 "bob_1" "bob@x.io" h])%list
    /\ status (snd (login VariantA
                      (Users.login_backend plain_setting VariantA
                         (Users.after plain_setting one_user
                            (fst (Accounts.signup
                                    (Users.signup_store plain_setting one_user)
                                    (Some "bob_1") (Some "bob@x.io")
                                    (Some "hunter22")))))
                      (VStr "bob_1") (VStr "hunter22"))) = 200.
Proof.
  assert (Hb : forall pw h,
             Users.hash_of plain_setting pw 12 = Accounts.Done h ->
             Users.verify plain_setting (VStr pw) (VStr h) = Some true).
  { intros pw h [= <-]. cbn [Users.verify plain_setting].
    now rewrite String.eqb_refl. }
  destruct (signup_then_login plain_setting one_user VariantA
              (Some "bob_1") (Some "bob@x.io") (Some "hunter22")
              String.eqb_refl Hb eq_refl) as [h [Hafter [_ Hlogin]]].
  exists h. split; [exact Hafter|].
  exact (f_equal (fun r => status (snd r)) Hlogin).
Defined.

(** X19.  Signups keep the table free of doubles.  When the comparison
    of the engine is symmetric and no two rows of the table have the
    same username, nor the same address, the same holds of the table
    that a signup leaves, whatever the request and its answer, and
    whether or not the engine has unique keys of its own: the two
    lookups of the handler are enough, as long as no other request
    comes in between. *)
Theorem signup_keeps_keys_distinct c t username email password
  (Hsym : forall x y, Users.same c x y = Users.same c y x)
  (Hnames : Users.distinct_by c Users.user_name t)
  (Hmails : Users.distinct_by c Users.user_email t) :
  Users.distinct_by c Users.user_name
    (Users.after c t
       (fst (Accounts.signup (Users.signup_store c t) username email password)))
  /\ Users.distinct_by c Users.user_email
       (Users.after c t
          (fst (Accounts.signup (Users.signup_store c t) username email password))).
Proof.
  destruct (signup_table_after c t username email password)
    as [[-> _] | [h [-> [_ [Hn [Hm _]]]]]]; [now split|].
  assert (Hext : forall (key : Users.user -> string) x0,
             Users.distinct_by c key t ->
             filter (fun x => Users.same c (key x) (key x0)) t = [] ->
             Users.distinct_by c key (t ++ [x0])).
  { intros key x0 Hd Hf i j x y Hi Hj Hs.
    assert (Hnone : forall k z, nth_error t k = Some z ->
                      Users.same c (key z) (key x0) = false).
    { intros k z Hk. apply nth_error_In in Hk.
      destruct (Users.same c (key z) (key x0)) eqn:E; [|reflexivity].
      assert (Hin : In z (filter (fun x => Users.same c (key x) (key x0)) t))
        by (apply filter_In; auto).
      rewrite Hf in Hin. destruct Hin. }
    destruct (Nat.lt_ge_cases i (List.length t)) as [Hit | Hit],
             (Nat.lt_ge_cases j (List.length t)) as [Hjt | Hjt].
    - rewrite nth_error_app1 in Hi, Hj by assumption. eauto.
    - rewrite nth_error_app1 in Hi by assumption.
      rewrite nth_error_app2 in Hj by assumption.
      destruct (j - List.length t)%nat as [|n]; [|destruct n; discriminate].
      injection Hj as <-. rewrite (Hnone i x Hi) in Hs. discriminate.
    - rewrite nth_error_app2 in Hi by assumption.
      rewrite nth_error_app1 in Hj by assumption.
      destruct (i - List.length t)%nat as [|n]; [|destruct n; discriminate].
      injection Hi as <-. rewrite Hsym, (Hnone j y Hj) in Hs. discriminate.
    - rewrite nth_error_app2 in Hi, Hj by assumption.
      destruct (i - List.length t)%nat as [|n] eqn:Ei;
        [|destruct n; discriminate].
      destruct (j - List.length t)%nat as [|n] eqn:Ej;
        [|destruct n; discriminate].
      lia. }
  split; apply Hext; assumption.
Qed.

Lemma one_user_distinct (key : Users.user -> string) :
  Users.distinct_by plain_setting key one_user.
Proof.
  intros i j x y Hi Hj _.
  destruct i as [|i]; [|destruct i; discriminate].
  destruct j as [|j]; [|destruct j; discriminate]. reflexivity.
Qed.

(** X19, for a second user on a table that holds one: the signup adds
    a row, and the two rows differ in username and in address. *)
Lemma signup_keeps_keys_distinct_witness :
  Users.after plain_setting one_user
    (fst (Accounts.signup (Users.signup_store plain_setting one_user)
            (Some "bob_1") (Some "bob@x.io") (Some "hunter22")))
  = (one_user ++ [Users.User 2 "bob_1" "bob@x.io" "$2b$12$hunter22"])%list
  /\ Users.distinct_by plain_setting Users.user_name
       (Users.after plain_setting one_user
          (fst (Accounts.signup (Users.signup_store plain_setting one_user)
                  (Some "bob_1") (Some "bob@x.io") (Some "hunter22"))))
  /\ Users.distinct_by plain_setting Users.user_email
       (Users.after plain_setting one_user
          (fst (Accounts.signup (Users.signup_store plain_setting one_user)
                  (Some "bob_1") (Some "bob@x.io") (Some "hunter22")))).
Proof.
  split; [reflexivity|].
  exact (signup_keeps_keys_distinct plain_setting one_user
           (Some "bob_1") (Some "bob@x.io") (Some "hunter22")
           String.eqb_sym (one_user_distinct _) (one_user_distinct _)).
Defined.
